(** * png2jpg.co: the image conversion service and its caller

    A shallow embedding of [src/lib/services/ImageConverter.ts] (class
    [ImageConverter]) and of the [handleFiles], [removeFile] and [clearAll]
    handlers of [src/lib/components/ImageConverter.svelte].

    Strings are byte strings; [toLowerCase] maps [A-Z] to [a-z].  The two
    allow-lists and the keys of the lookup table are lower-case ASCII without
    the letter k, so membership of a lower-cased name segment is the same as
    with the Unicode case mapping.  Reading a property of the lookup table,
    an object literal, finds its ten own keys and the members it inherits
    from [Object.prototype].

    The host platform (image decoder, canvas encoder, file reader, network,
    random numbers) is a record of oracles, [Host]; the platform state the
    code reads and writes (the object-URL registry, [document.body], the
    console) is the record [World].  Methods that touch it are computations
    in a state-and-exception monad [M]. *)

From Stdlib Require QArith.
From Stdlib Require Import Ascii String.
From stdpp Require Import base strings list gmap pretty.

Local Open Scope string_scope.
Local Open Scope list_scope.
Local Open Scope stdpp_scope.

(** ** JavaScript string primitives *)

Module Js.

(** [s.split(sep)] for a one-character separator: never empty. *)
Fixpoint split (sep : ascii) (s : string) : list string :=
  match s with
  | EmptyString => [EmptyString]
  | String c r =>
      if Ascii.eqb c sep then EmptyString :: split sep r
      else match split sep r with
           | seg :: segs => String c seg :: segs
           | [] => [String c EmptyString]
           end
  end.

(** [a.pop()]: the last element, [undefined] on an empty array. *)
Definition pop (a : list string) : option string := last a.

Definition lower_ascii (c : ascii) : ascii :=
  let n := nat_of_ascii c in
  if (65 <=? n)%nat && (n <=? 90)%nat then ascii_of_nat (n + 32) else c.

Fixpoint toLowerCase (s : string) : string :=
  match s with
  | EmptyString => EmptyString
  | String c r => String (lower_ascii c) (toLowerCase r)
  end.

(** Truthiness of a string value; [undefined] is [None]. *)
Definition truthy (s : string) : bool := negb (String.eqb s "").

(** [a || 'lit'] with a string literal on the right. *)
Definition or_lit (a : option string) (b : string) : string :=
  match a with
  | Some s => if truthy s then s else b
  | None => b
  end.

(** [arr.includes(x)]. *)
Definition includes (arr : list string) (x : string) : bool :=
  bool_decide (x ∈ arr).

(** What a property read can give: a string, or a member inherited from
    [Object.prototype] (a function; for [__proto__] the prototype object). *)
Inductive Value :=
| Str (s : string)
| Inherited (key : string).

(** The members every object literal inherits from [Object.prototype]. *)
Definition Object_prototype : list string :=
  [ "constructor"; "hasOwnProperty"; "isPrototypeOf"; "propertyIsEnumerable";
    "toLocaleString"; "toString"; "valueOf"; "__proto__";
    "__defineGetter__"; "__defineSetter__"; "__lookupGetter__";
    "__lookupSetter__" ].

(** [obj[key]] for an object literal whose own properties are [own]: an own
    property first, an inherited member otherwise, else [undefined]. *)
Definition get (own : gmap string string) (key : string) : option Value :=
  match own !! key with
  | Some s => Some (Str s)
  | None =>
      if includes Object_prototype key then Some (Inherited key) else None
  end.

(** Functions and objects are truthy. *)
Definition truthy_value (v : Value) : bool :=
  match v with
  | Str s => truthy s
  | Inherited _ => true
  end.

(** [a || b] on values. *)
Definition or_value (a b : option Value) : option Value :=
  match a with
  | Some v => if truthy_value v then a else b
  | None => b
  end.

(** [a || 'lit'] on values. *)
Definition or_value_lit (a : option Value) (b : string) : Value :=
  match a with
  | Some v => if truthy_value v then v else Str b
  | None => Str b
  end.

(** [[^.]+$] from the current position: the rest is free of dots. *)
Fixpoint no_dot (s : string) : bool :=
  match s with
  | EmptyString => true
  | String c r => negb (Ascii.eqb c ".") && no_dot r
  end.

(** Does [/\.[^.]+$/] match starting exactly at the head of [s]? *)
Definition ext_match_here (s : string) : bool :=
  match s with
  | String c r => Ascii.eqb c "." && negb (String.eqb r "") && no_dot r
  | EmptyString => false
  end.

(** [s.replace(/\.[^.]+$/, '')]: the leftmost match is dropped. *)
Fixpoint strip_ext (s : string) : string :=
  match s with
  | EmptyString => EmptyString
  | String c r =>
      if ext_match_here s then EmptyString else String c (strip_ext r)
  end.

(** [/\.[^.]+$/.test(s)]. *)
Fixpoint has_ext (s : string) : bool :=
  match s with
  | EmptyString => false
  | String c r => ext_match_here s || has_ext r
  end.

End Js.

(** ** Data *)

Inductive ImageFormat := png | jpg | jpeg | webp.

#[global] Instance ImageFormat_eq_dec : EqDecision ImageFormat.
Proof. solve_decision. Defined.

(** The string a format value is at run time. *)
Definition format_tag (f : ImageFormat) : string :=
  match f with
  | png => "png"
  | jpg => "jpg"
  | jpeg => "jpeg"
  | webp => "webp"
  end.

Record Blob := { blob_type : string; blob_data : string }.

Definition blob_size (b : Blob) : nat := String.length (blob_data b).

Record File := { name : string; type : string; content : string }.

(** [file.size] *)
Definition file_size (f : File) : nat := String.length (content f).

(** A [File] is a [Blob]. *)
Definition file_blob (f : File) : Blob :=
  {| blob_type := type f; blob_data := content f |}.

Record ConvertedFile := {
  id : string;
  originalFile : File;
  originalUrl : string;
  convertedUrl : string;
  filename : string;
  isConverting : bool;
  sourceFormat : Js.Value;
  targetFormat : ImageFormat;
  originalSize : nat;
  convertedSize : nat
}.

Definition SUPPORTED_INPUT_FORMATS : list string :=
  [ "image/png"; "image/jpeg"; "image/jpg"; "image/webp"; "image/gif";
    "image/svg+xml"; "image/x-icon"; "image/vnd.microsoft.icon";
    "image/tiff"; "image/avif" ].

Definition SUPPORTED_EXTENSIONS : list string :=
  [ "png"; "jpg"; "jpeg"; "gif"; "webp"; "svg"; "ico"; "tiff"; "avif" ].

(** The own properties of the object literal [MIME_TO_EXT]; it is read with
    [Js.get]. *)
Definition MIME_TO_EXT : gmap string string :=
  list_to_map
    [ ("image/jpeg", "jpg"); ("image/jpg", "jpg"); ("image/png", "png");
      ("image/webp", "webp"); ("image/gif", "gif"); ("image/svg+xml", "svg");
      ("image/x-icon", "ico"); ("image/vnd.microsoft.icon", "ico");
      ("image/tiff", "tiff"); ("image/avif", "avif") ].

(** ** Pure methods *)

(** [file.name.split('.').pop()?.toLowerCase()] *)
Definition name_ext (f : File) : option string :=
  Js.toLowerCase <$> Js.pop (Js.split "." (name f)).

Definition doesSupportFileType (file : File) : bool :=
  if Js.includes SUPPORTED_INPUT_FORMATS (type file) then true
  else
    let ext := name_ext file in
    Js.includes SUPPORTED_EXTENSIONS (Js.or_lit ext "").

(** Declared to return a string; an inherited member comes back as it is. *)
Definition getFileExtension (mimeType : string) : Js.Value :=
  Js.or_value_lit (Js.get MIME_TO_EXT mimeType) "unknown".

Definition getFormatConfig (targetFormat : ImageFormat)
  : string * QArith_base.Q :=
  match targetFormat with
  | png => ("image/png", QArith_base.Qmake 1 1)
  | webp => ("image/webp", QArith_base.Qmake 9 10)
  | jpg | jpeg => ("image/jpeg", QArith_base.Qmake 9 10)
  end.

(** ** The canvas *)

Record Image := { img_src : string; img_width : nat; img_height : nat }.

Inductive DrawOp :=
| FillRect (fillStyle : string) (x y w h : nat)
| DrawImage (img : Image) (dx dy : nat).

(** A canvas element: its size and the drawing operations applied to its
    (initially transparent) bitmap, oldest first. *)
Record Canvas := { width : nat; height : nat; ops : list DrawOp }.

(** [document.createElement('canvas')]: 300 by 150, transparent. *)
Definition new_canvas : Canvas := {| width := 300; height := 150; ops := [] |}.

(** ** Host platform and platform state *)

Inductive Exn := Error (message : string).

Inductive result (A : Type) :=
| Ok (a : A)
| Err (e : Exn).
Arguments Ok {A} a.
Arguments Err {A} e.

Record Host := {
  (** the n-th value of [Math.random().toString(36).substring(2, 11)] *)
  random_id : nat → string;
  (** [FileReader.readAsText]: the text, or [None] when [onerror] fires *)
  read_as_text : File → option string;
  (** decoding the bytes set as an image source: the bitmap's size, or
      [None] when [onerror] fires *)
  decode : Blob → option (nat * nat);
  (** whether [canvas.getContext('2d')] gives a context *)
  context2d : bool;
  (** the blob [canvas.toBlob] passes to its callback, [None] for [null] *)
  encode : Canvas → string → QArith_base.Q → option Blob;
  (** [fetch] of a URL that is not a registered object URL *)
  network : string → result Blob;
  (** [response.blob()] *)
  read_body : Blob → result Blob;
  (** [link.click()] on an anchor with this [href] and [download] *)
  click : string → string → result unit
}.

Record Anchor := { node : nat; href : string; download : string }.

Inductive Level := info | warn | error.

Record World := {
  handles : gmap string Blob;   (* live object URLs and what they refer to *)
  next_handle : nat;            (* object URLs created so far *)
  rng : nat;                    (* random numbers drawn so far *)
  body : list Anchor;           (* anchors appended to document.body *)
  next_node : nat;              (* elements created so far *)
  saved : list (string * string); (* save actions triggered: href, name *)
  console : list (Level * string)
}.

Definition empty_world : World :=
  {| handles := ∅; next_handle := 0; rng := 0; body := []; next_node := 0;
     saved := []; console := [] |}.

(** ** State and exceptions *)

Definition M (A : Type) : Type := World → result A * World.

Definition ret {A} (a : A) : M A := λ w, (Ok a, w).

Definition bind {A B} (m : M A) (k : A → M B) : M B :=
  λ w, match m w with
       | (Ok a, w') => k a w'
       | (Err e, w') => (Err e, w')
       end.

Definition throw {A} (e : Exn) : M A := λ w, (Err e, w).

(** [try { body } catch (e) { handler(e) }]: the state reached when the
    exception was raised is the one the handler starts from. *)
Definition try_catch {A} (body : M A) (handler : Exn → M A) : M A :=
  λ w, match body w with
       | (Ok a, w') => (Ok a, w')
       | (Err e, w') => handler e w'
       end.

Definition lift {A} (r : result A) : M A := λ w, (r, w).

#[global] Instance M_ret : MRet M := @ret.
#[global] Instance M_bind : MBind M := λ A B k m, bind m k.

(** ** Platform primitives *)

Definition blob_url (n : nat) : string := "blob:" +:+ pretty n.

Definition createObjectURL (b : Blob) : M string :=
  λ w, let u := blob_url (next_handle w) in
       (Ok u, {| handles := <[u := b]> (handles w);
                 next_handle := S (next_handle w);
                 rng := rng w; body := body w; next_node := next_node w;
                 saved := saved w; console := console w |}).

Definition revokeObjectURL (u : string) : M unit :=
  λ w, (Ok tt, {| handles := delete u (handles w);
                  next_handle := next_handle w;
                  rng := rng w; body := body w; next_node := next_node w;
                  saved := saved w; console := console w |}).

(** [console.log], [console.warn], [console.error]: the level and the
    message are recorded, the object logged with them is not. *)
Definition console_write (l : Level) (msg : string) : M unit :=
  λ w, (Ok tt, {| handles := handles w; next_handle := next_handle w;
                  rng := rng w; body := body w; next_node := next_node w;
                  saved := saved w; console := console w ++ [(l, msg)] |}).

Definition createAnchor : M Anchor :=
  λ w, (Ok {| node := next_node w; href := ""; download := "" |},
        {| handles := handles w; next_handle := next_handle w;
           rng := rng w; body := body w; next_node := S (next_node w);
           saved := saved w; console := console w |}).

Definition appendChild (a : Anchor) : M unit :=
  λ w, (Ok tt, {| handles := handles w; next_handle := next_handle w;
                  rng := rng w; body := body w ++ [a];
                  next_node := next_node w;
                  saved := saved w; console := console w |}).

Definition removeChild (a : Anchor) : M unit :=
  λ w, (Ok tt, {| handles := handles w; next_handle := next_handle w;
                  rng := rng w;
                  body := List.filter (λ b, negb (Nat.eqb (node b) (node a))) (body w);
                  next_node := next_node w;
                  saved := saved w; console := console w |}).

Definition record_save (a : Anchor) : M unit :=
  λ w, (Ok tt, {| handles := handles w; next_handle := next_handle w;
                  rng := rng w; body := body w; next_node := next_node w;
                  saved := saved w ++ [(href a, download a)];
                  console := console w |}).

Section WithHost.

Variable host : Host.

Definition generateId : M string :=
  λ w, (Ok (random_id host (rng w)),
        {| handles := handles w; next_handle := next_handle w;
           rng := S (rng w); body := body w; next_node := next_node w;
           saved := saved w; console := console w |}).

(** [fetch(url)]: an object URL is served from the registry, anything else
    by the network. *)
Definition fetch (url : string) : M Blob :=
  λ w, match handles w !! url with
       | Some b => (Ok b, w)
       | None => (network host url, w)
       end.

(** [link.click()]: the save action happens unless the host throws. *)
Definition click_link (a : Anchor) : M unit :=
  lift (click host (href a) (download a));; record_save a.

(** ** Admission and bookkeeping *)

(** The callback of [Array.from(fileList).filter(...)], applied in order. *)
Fixpoint filter_files (fileList : list File) : M (list File) :=
  match fileList with
  | [] => mret []
  | file :: rest =>
      let isSupported := doesSupportFileType file in
      (if isSupported then mret tt
       else console_write warn "[ImageConverter] Unsupported file type");;
      kept ← filter_files rest;
      mret (if isSupported then file :: kept else kept)
  end.

Definition filterSupportedFiles (fileList : list File) : M (list File) :=
  console_write info
    ("[ImageConverter] Processing " +:+ pretty (length fileList) +:+ " file(s)");;
  imageFiles ← filter_files fileList;
  console_write info
    ("[ImageConverter] " +:+ pretty (length imageFiles)
       +:+ " supported image file(s) found");;
  mret imageFiles.

Definition createConvertedFileRecord (file : File) (targetFormat : ImageFormat)
  : M ConvertedFile :=
  id ← generateId;
  originalUrl ← createObjectURL (file_blob file);
  let sourceFormat :=
    Js.or_value_lit
      (Js.or_value (Some (getFileExtension (type file)))
         (Js.Str <$> name_ext file))
      "unknown" in
  let baseFilename := Js.strip_ext (name file) in
  let filename := baseFilename +:+ "." +:+ format_tag targetFormat in
  console_write info "[ImageConverter] Creating file record";;
  mret {| id := id;
          originalFile := file;
          originalUrl := originalUrl;
          convertedUrl := "";
          filename := filename;
          isConverting := true;
          sourceFormat := sourceFormat;
          targetFormat := targetFormat;
          originalSize := file_size file;
          convertedSize := 0 |}.

Definition cleanupFile (file : ConvertedFile) : M unit :=
  console_write info "[ImageConverter] Cleaning up file";;
  revokeObjectURL (originalUrl file);;
  if Js.truthy (convertedUrl file) then revokeObjectURL (convertedUrl file)
  else mret tt.

Fixpoint for_each (files : list ConvertedFile) : M unit :=
  match files with
  | [] => mret tt
  | file :: rest => cleanupFile file;; for_each rest
  end.

Definition cleanupFiles (files : list ConvertedFile) : M unit :=
  console_write info
    ("[ImageConverter] Cleaning up " +:+ pretty (length files) +:+ " files");;
  for_each files.

(** ** The conversion routine *)

Definition set_width (n : nat) (c : Canvas) : Canvas :=
  {| width := n; height := height c; ops := [] |}.

Definition set_height (n : nat) (c : Canvas) : Canvas :=
  {| width := width c; height := n; ops := [] |}.

Definition fillRect (style : string) (x y w h : nat) (c : Canvas) : Canvas :=
  {| width := width c; height := height c;
     ops := ops c ++ [FillRect style x y w h] |}.

Definition drawImage (img : Image) (dx dy : nat) (c : Canvas) : Canvas :=
  {| width := width c; height := height c;
     ops := ops c ++ [DrawImage img dx dy] |}.

Definition setupCanvas (img : Image) (targetFormat : ImageFormat) : Canvas :=
  let canvas := new_canvas in
  let ctx := context2d host in
  let canvas := set_width (img_width img) canvas in
  let canvas := set_height (img_height img) canvas in
  if ctx then
    let canvas :=
      if bool_decide (targetFormat = jpg) || bool_decide (targetFormat = jpeg)
      then fillRect "#FFFFFF" 0 0 (width canvas) (height canvas) canvas
      else canvas in
    drawImage img 0 0 canvas
  else canvas.

Definition canvasToBlob (canvas : Canvas) (mimeType : string)
    (quality : QArith_base.Q) : M Blob :=
  match encode host canvas mimeType quality with
  | Some blob => mret blob
  | None => throw (Error "Failed to convert canvas to blob")
  end.

(** What an object URL refers to when the image element loads it. *)
Definition resolve_url (url : string) : M (option Blob) :=
  λ w, (Ok (handles w !! url), w).

(** [img.src = url], then [img.onload] or [img.onerror]. *)
Definition load_src (file : File) (url : string) : M Image :=
  source ← resolve_url url;
  match source ≫= decode host with
  | Some (w, h) =>
      console_write info "[ImageConverter] Image loaded successfully";;
      mret {| img_src := url; img_width := w; img_height := h |}
  | None =>
      console_write error "[ImageConverter] Image load error";;
      throw (Error ("Failed to load image: " +:+ name file))
  end.

Definition loadImage (file : File) : M Image :=
  if String.eqb (type file) "image/svg+xml" then
    console_write info ("[ImageConverter] Handling SVG file: " +:+ name file);;
    match read_as_text host file with
    | Some svgString =>
        let blob := {| blob_type := "image/svg+xml"; blob_data := svgString |} in
        url ← createObjectURL blob;
        load_src file url
    | None =>
        console_write error "[ImageConverter] Failed to read SVG file";;
        throw (Error ("Failed to read SVG file: " +:+ name file))
    end
  else
    url ← createObjectURL (file_blob file);
    load_src file url.

Record Converted := { url : string; size : nat }.

Definition convertImage (file : File) (targetFormat : ImageFormat)
  : M Converted :=
  console_write info ("[ImageConverter] Starting conversion for " +:+ name file);;
  try_catch
    (img ← loadImage file;
     let canvas := setupCanvas img targetFormat in
     let '(mimeType, quality) := getFormatConfig targetFormat in
     blob ← canvasToBlob canvas mimeType quality;
     url ← createObjectURL blob;
     console_write info "[ImageConverter] Conversion successful";;
     mret {| url := url; size := blob_size blob |})
    (λ e,
     console_write error "[ImageConverter] Conversion failed";;
     throw e).

(** ** Download *)

Definition set_href (u : string) (a : Anchor) : Anchor :=
  {| node := node a; href := u; download := download a |}.

Definition set_download (n : string) (a : Anchor) : Anchor :=
  {| node := node a; href := href a; download := n |}.

Definition downloadFile (file : ConvertedFile) : M unit :=
  console_write info "[ImageConverter] Starting download";;
  try_catch
    (response ← fetch (convertedUrl file);
     blob ← lift (read_body host response);
     link ← createAnchor;
     u ← createObjectURL blob;
     let link := set_href u link in
     let link := set_download (filename file) link in
     appendChild link;;
     click_link link;;
     removeChild link;;
     console_write info "[ImageConverter] Download initiated successfully")
    (λ e, console_write error "[ImageConverter] Download failed").

(** ** The caller: [ImageConverter.svelte] *)

(** The callback of [files.map(...)] on success. *)
Definition apply_result (cid : string) (r : Converted) (f : ConvertedFile)
  : ConvertedFile :=
  if String.eqb (id f) cid then
    {| id := id f;
       originalFile := originalFile f;
       originalUrl := originalUrl f;
       convertedUrl := url r;
       filename := filename f;
       isConverting := false;
       sourceFormat := sourceFormat f;
       targetFormat := targetFormat f;
       originalSize := originalSize f;
       convertedSize := size r |}
  else f.

(** [files.filter((f) => f.id !== cid)] *)
Definition discard (cid : string) (files : list ConvertedFile)
  : list ConvertedFile :=
  List.filter (λ f, negb (String.eqb (id f) cid)) files.

(** One iteration of the loop of [handleFiles], run without interleaving. *)
Definition handleFile (selectedFormat : ImageFormat)
    (files : list ConvertedFile) (file : File) : M (list ConvertedFile) :=
  convertedFile ← createConvertedFileRecord file selectedFormat;
  let files := files ++ [convertedFile] in
  try_catch
    (result ← convertImage file selectedFormat;
     mret (map (apply_result (id convertedFile) result) files))
    (λ _, mret (discard (id convertedFile) files)).

Fixpoint handle_each (selectedFormat : ImageFormat)
    (files : list ConvertedFile) (imageFiles : list File)
  : M (list ConvertedFile) :=
  match imageFiles with
  | [] => mret files
  | file :: rest =>
      files ← handleFile selectedFormat files file;
      handle_each selectedFormat files rest
  end.

(** [handleFiles]; clearing the file input at its end is not modelled. *)
Definition handleFiles (selectedFormat : ImageFormat)
    (files : list ConvertedFile) (fileList : list File)
  : M (list ConvertedFile) :=
  imageFiles ← filterSupportedFiles fileList;
  handle_each selectedFormat files imageFiles.

Definition removeFile (cid : string) (files : list ConvertedFile)
  : M (list ConvertedFile) :=
  match List.find (λ f, String.eqb (id f) cid) files with
  | Some fileToRemove => cleanupFile fileToRemove
  | None => mret tt
  end;;
  mret (discard cid files).

Definition clearAll (files : list ConvertedFile) : M (list ConvertedFile) :=
  cleanupFiles files;;
  mret [].

End WithHost.

(** ** Interleaved executions of the caller

    [handleFiles] awaits each conversion, so other handlers run in between.
    A state is the platform state with the caller's list [files]; a step is
    one of the caller's assignments to [files], or a call that leaves the
    list alone.  A conversion is one step, taken where its outcome is
    assigned; the record a success update or a discard names is any id. *)

Definition AppState : Type := World * list ConvertedFile.

Inductive step (host : Host) : AppState → AppState → Prop :=
| step_filter w w' files fileList imageFiles :
    filterSupportedFiles fileList w = (Ok imageFiles, w') →
    step host (w, files) (w', files)
| step_add w w' files file fmt convertedFile :
    createConvertedFileRecord host file fmt w = (Ok convertedFile, w') →
    step host (w, files) (w', files ++ [convertedFile])
| step_success w w' files file fmt cid result :
    convertImage host file fmt w = (Ok result, w') →
    step host (w, files) (w', map (apply_result cid result) files)
| step_failure w w' files file fmt cid e :
    convertImage host file fmt w = (Err e, w') →
    step host (w, files) (w', discard cid files)
| step_download w w' files file :
    downloadFile host file w = (Ok tt, w') →
    step host (w, files) (w', files)
| step_remove w w' files files' cid :
    removeFile cid files w = (Ok files', w') →
    step host (w, files) (w', files')
| step_clear w w' files files' :
    clearAll files w = (Ok files', w') →
    step host (w, files) (w', files').

Definition reachable (host : Host) (s : AppState) : Prop :=
  ∃ w0, rtc (step host) (w0, []) s.

(** The registry only holds URLs it has handed out, and [document.body] only
    elements that were created. *)
Definition wf_world (w : World) : Prop :=
  (∀ u, is_Some (handles w !! u) → ∃ n, n < next_handle w ∧ u = blob_url n)
  ∧ Forall (λ a, node a < next_node w) (body w).

(** [w'] differs from [w] by console output only. *)
Definition only_logs (w w' : World) : Prop :=
  ∃ entries,
    w' = {| handles := handles w; next_handle := next_handle w; rng := rng w;
            body := body w; next_node := next_node w; saved := saved w;
            console := console w ++ entries |}.

(** A file called [png]: no dot in its name, no declared media type. *)
Definition bare_png : File := {| name := "png"; type := ""; content := "" |}.

(** [s.endsWith(suffix)] *)
Fixpoint ends_with (suffix s : string) : bool :=
  String.eqb s suffix ||
  match s with
  | EmptyString => false
  | String _ r => ends_with suffix r
  end.

(** ** What the host is asked during a conversion *)

(** The bytes [loadImage] sets as the image source: for SVG input the text
    read from the file, wrapped in a typed blob; the file itself otherwise.
    [None] when reading the SVG file fails. *)
Definition image_source (host : Host) (file : File) : option Blob :=
  if String.eqb (type file) "image/svg+xml" then
    (λ svgString, {| blob_type := "image/svg+xml"; blob_data := svgString |})
      <$> read_as_text host file
  else Some (file_blob file).

(** Decoding the file into a bitmap fails: the SVG text cannot be read, or
    the image element reports an error for the source. *)
Definition decoding_fails (host : Host) (file : File) : Prop :=
  image_source host file = None
  ∨ ∃ b, image_source host file = Some b ∧ decode host b = None.

(** The file decodes, and encoding the canvas set up from the bitmap (whose
    source is the object URL created in state [w]) yields no data. *)
Definition encoding_empty (host : Host) (file : File) (fmt : ImageFormat)
    (w : World) : Prop :=
  ∃ b wd ht,
    image_source host file = Some b
    ∧ decode host b = Some (wd, ht)
    ∧ encode host
        (setupCanvas host
           {| img_src := blob_url (next_handle w);
              img_width := wd; img_height := ht |} fmt)
        (getFormatConfig fmt).1 (getFormatConfig fmt).2 = None.

(** [w'] is [w] with registry [h] after [n] object URLs, up to console
    output: the document and the random source are as in [w]. *)
Definition registry_is (w : World) (h : gmap string Blob) (n : nat)
    (w' : World) : Prop :=
  handles w' = h ∧ next_handle w' = n ∧ rng w' = rng w
  ∧ body w' = body w ∧ next_node w' = next_node w ∧ saved w' = saved w.

(** The invariant of a tracking record. *)
Definition converting_iff_no_url (f : ConvertedFile) : Prop :=
  isConverting f = true ↔ convertedUrl f = "".

(** What [downloadFile] retrieves before the save step: [fetch] of the
    converted URL, then [response.blob()]. *)
Definition retrieved (host : Host) (file : ConvertedFile) (w : World)
  : result Blob :=
  match (fetch host (convertedUrl file) w).1 with
  | Ok response => read_body host response
  | Err e => Err e
  end.

(** ** Sample hosts and files *)

(** A host on which everything succeeds: every source decodes to an 800 by
    600 bitmap and every canvas encodes to a few bytes of the asked type. *)
Definition host_ok : Host :=
  {| random_id := λ n, "id" +:+ pretty n;
     read_as_text := λ f, Some (content f);
     decode := λ _, Some (800, 600);
     context2d := true;
     encode := λ _ mimeType _,
       Some {| blob_type := mimeType; blob_data := "encoded" |};
     network := λ _, Err (Error "Failed to fetch");
     read_body := λ b, Ok b;
     click := λ _ _, Ok tt |}.

(** The same host, except that no 2D context can be obtained. *)
Definition host_no_context : Host :=
  {| random_id := random_id host_ok;
     read_as_text := read_as_text host_ok;
     decode := decode host_ok;
     context2d := false;
     encode := encode host_ok;
     network := network host_ok;
     read_body := read_body host_ok;
     click := click host_ok |}.

(** The same host, except that no source decodes. *)
Definition host_no_decode : Host :=
  {| random_id := random_id host_ok;
     read_as_text := read_as_text host_ok;
     decode := λ _, None;
     context2d := true;
     encode := encode host_ok;
     network := network host_ok;
     read_body := read_body host_ok;
     click := click host_ok |}.

Definition photo_png : File :=
  {| name := "photo.png"; type := "image/png"; content := "PNGDATA" |}.

(** The same file as the browser reports it when it knows no media type. *)
Definition photo_untyped : File :=
  {| name := "photo.png"; type := ""; content := "PNGDATA" |}.

Definition invalid_png : File :=
  {| name := "invalid.png"; type := "image/png";
     content := "invalid image data" |}.

Definition sample_img : Image :=
  {| img_src := "blob:0"; img_width := 800; img_height := 600 |}.

Definition encoded_png : Blob :=
  {| blob_type := "image/png"; blob_data := "encoded" |}.

(** The record of [photo.png] after its conversion to PNG on [host_ok], and
    the platform state at that point: [blob:0] is the record's original URL,
    [blob:1] the image source of [loadImage], [blob:2] the result. *)
Definition converted_photo : ConvertedFile :=
  {| id := "id0";
     originalFile := photo_png;
     originalUrl := "blob:0";
     convertedUrl := "blob:2";
     filename := "photo.png";
     isConverting := false;
     sourceFormat := Js.Str "png";
     targetFormat := png;
     originalSize := 7;
     convertedSize := 7 |}.

Definition converted_world : World :=
  {| handles :=
       <["blob:2" := encoded_png]>
         (<["blob:1" := file_blob photo_png]>
            (<["blob:0" := file_blob photo_png]> ∅));
     next_handle := 3;
     rng := 1;
     body := [];
     next_node := 0;
     saved := [];
     console :=
       [ (info, "[ImageConverter] Creating file record");
         (info, "[ImageConverter] Starting conversion for photo.png");
         (info, "[ImageConverter] Image loaded successfully");
         (info, "[ImageConverter] Conversion successful") ] |}.

(** ** URLs held by the caller's list *)

(** Both URLs of a record can still be fetched: the original one is
    registered, the converted one is unset or registered. *)
Definition urls_live (w : World) (f : ConvertedFile) : Prop :=
  is_Some (handles w !! originalUrl f)
  ∧ (convertedUrl f = "" ∨ is_Some (handles w !! convertedUrl f)).

(** Records with different ids share no URL. *)
Definition urls_apart (f g : ConvertedFile) : Prop :=
  id f ≠ id g →
  originalUrl f ≠ originalUrl g
  ∧ originalUrl f ≠ convertedUrl g
  ∧ convertedUrl f ≠ originalUrl g
  ∧ (convertedUrl f ≠ "" → convertedUrl f ≠ convertedUrl g).

Definition no_dangling (s : AppState) : Prop :=
  wf_world s.1
  ∧ Forall (urls_live s.1) s.2
  ∧ ∀ f g, f ∈ s.2 → g ∈ s.2 → urls_apart f g.

(** The console line [filterSupportedFiles] writes per rejected file. *)
Definition unsupported_warning : Level * string :=
  (warn, "[ImageConverter] Unsupported file type").

(** A file whose declared media type is the name of a member of
    [Object.prototype]. *)
Definition photo_constructor : File :=
  {| name := "photo.png"; type := "constructor"; content := "PNGDATA" |}.

(** More sample files. *)
Definition photo_upper : File :=
  {| name := "PHOTO.PNG"; type := ""; content := "PNGDATA" |}.

Definition notes_txt : File :=
  {| name := "notes.txt"; type := "text/plain"; content := "hello" |}.

(** A second record that got the id of [converted_photo], not converted
    yet, whose original URL is [blob:1]. *)
Definition colliding_photo : ConvertedFile :=
  {| id := "id0";
     originalFile := photo_png;
     originalUrl := "blob:1";
     convertedUrl := "";
     filename := "photo.jpg";
     isConverting := true;
     sourceFormat := Js.Str "png";
     targetFormat := jpg;
     originalSize := 7;
     convertedSize := 0 |}.

(** Unfold the monad and the platform primitives. *)
Ltac run :=
  cbv [mbind M_bind bind mret M_ret ret throw lift try_catch
       generateId createObjectURL revokeObjectURL console_write
       createAnchor appendChild removeChild record_save click_link
       resolve_url fetch].

(** * Properties *)

(** ** String primitives *)

Lemma split_nonempty sep s : Js.split sep s ≠ [].
Proof. destruct s as [|c r]; simpl; [done|]. repeat case_match; done. Qed.

Lemma split_no_dot s : Js.no_dot s = true → Js.split "." s = [s].
Proof.
  induction s as [|c r IH]; simpl; [done|].
  intros [Hc Hr]%andb_prop. apply negb_true_iff in Hc. rewrite Hc.
  by rewrite (IH Hr).
Qed.

Lemma no_dot_app_dot b e : Js.no_dot (b +:+ "." +:+ e) = false.
Proof.
  induction b as [|c r IH]; simpl; [done|].
  rewrite IH. apply andb_false_r.
Qed.

Lemma strip_ext_app b e :
  e ≠ "" → Js.no_dot e = true → Js.strip_ext (b +:+ "." +:+ e) = b.
Proof.
  intros He Hnd. induction b as [|c r IH].
  - destruct e as [|c e]; [done|].
    change ("" +:+ "." +:+ String c e) with (String "." (String c e)).
    cbn [Js.strip_ext Js.ext_match_here]. by rewrite Hnd.
  - change ((String c r) +:+ "." +:+ e) with (String c (r +:+ "." +:+ e)).
    cbn [Js.strip_ext Js.ext_match_here].
    rewrite no_dot_app_dot, andb_false_r. by rewrite IH.
Qed.

Lemma strip_ext_none s : Js.has_ext s = false → Js.strip_ext s = s.
Proof.
  induction s as [|c r IH]; [done|].
  cbn [Js.has_ext Js.strip_ext]. intros [H1 H2]%orb_false_elim.
  rewrite H1. by rewrite IH.
Qed.

Lemma includes_true arr x : Js.includes arr x = true ↔ x ∈ arr.
Proof. unfold Js.includes. apply bool_decide_eq_true. Qed.

(** ** [doesSupportFileType] *)

Lemma doesSupportFileType_true file :
  doesSupportFileType file = true ↔
  type file ∈ SUPPORTED_INPUT_FORMATS
  ∨ Js.or_lit (name_ext file) "" ∈ SUPPORTED_EXTENSIONS.
Proof.
  unfold doesSupportFileType.
  destruct (Js.includes SUPPORTED_INPUT_FORMATS (type file)) eqn:Hm.
  - apply includes_true in Hm. split; [by left|done].
  - rewrite includes_true. split; [by right|].
    intros [H|H]; [|done]. apply includes_true in H. congruence.
Qed.

Lemma doesSupportFileType_false file :
  type file ∉ SUPPORTED_INPUT_FORMATS →
  Js.or_lit (name_ext file) "" ∉ SUPPORTED_EXTENSIONS →
  doesSupportFileType file = false.
Proof.
  intros H1 H2. apply not_true_is_false.
  rewrite doesSupportFileType_true. by intros [?|?].
Qed.

Lemma name_ext_no_dot file :
  Js.no_dot (name file) = true →
  name_ext file = Some (Js.toLowerCase (name file)).
Proof. intros H. unfold name_ext. by rewrite (split_no_dot _ H). Qed.

(** A name without any dot is taken whole as its own extension. *)
Lemma doesSupportFileType_no_dot file :
  type file ∉ SUPPORTED_INPUT_FORMATS →
  Js.no_dot (name file) = true →
  doesSupportFileType file
  = Js.includes SUPPORTED_EXTENSIONS (Js.toLowerCase (name file)).
Proof.
  intros Hm Hd. unfold doesSupportFileType.
  destruct (Js.includes _ (type file)) eqn:E.
  { apply includes_true in E. done. }
  rewrite (name_ext_no_dot _ Hd). simpl.
  destruct (Js.truthy _) eqn:Ht; [done|].
  unfold Js.truthy in Ht. apply negb_false_iff, String.eqb_eq in Ht.
  by rewrite Ht.
Qed.

(** C2.  A file whose name is the bare word [png], without any dot and hence
    without an extension ([/\.[^.]+$/] does not match it), and whose declared
    media type is empty, is reported as supported: [split('.').pop()] returns
    the whole name, which is then looked up in the extension allow-list. *)
Theorem doesSupportFileType_bare_name :
  (type bare_png ∉ SUPPORTED_INPUT_FORMATS)
  ∧ Js.no_dot (name bare_png) = true
  ∧ Js.has_ext (name bare_png) = false
  ∧ name_ext bare_png = Some "png"
  ∧ doesSupportFileType bare_png = true.
Proof.
  split_and!; try reflexivity.
  apply (bool_decide_eq_false _). reflexivity.
Qed.

(** ** Running computations *)

Lemma run_bind {A B} (m : M A) (k : A → M B) w :
  (m ≫= k) w
  = match m w with
    | (Ok a, w') => k a w'
    | (Err e, w') => (Err e, w')
    end.
Proof. reflexivity. Qed.

Lemma run_ret {A} (a : A) w : mret (M := M) a w = (Ok a, w).
Proof. reflexivity. Qed.

Lemma run_try {A} (body : M A) (handler : Exn → M A) w :
  try_catch body handler w
  = match body w with
    | (Ok a, w') => (Ok a, w')
    | (Err e, w') => handler e w'
    end.
Proof. reflexivity. Qed.

(** ** [filterSupportedFiles] *)

Lemma only_logs_refl w : only_logs w w.
Proof. exists []. rewrite app_nil_r. by destruct w. Qed.

Lemma only_logs_trans w1 w2 w3 :
  only_logs w1 w2 → only_logs w2 w3 → only_logs w1 w3.
Proof.
  intros [l1 ->] [l2 ->]. exists (l1 ++ l2). simpl. by rewrite app_assoc.
Qed.

Lemma only_logs_write l msg w : only_logs w (console_write l msg w).2.
Proof. by exists [(l, msg)]. Qed.

Lemma filter_files_run fileList w :
  ∃ w', filter_files fileList w
        = (Ok (List.filter doesSupportFileType fileList), w')
        ∧ only_logs w w'.
Proof.
  revert w. induction fileList as [|file rest IH]; intros w.
  - exists w. split; [done|apply only_logs_refl].
  - cbn [filter_files List.filter].
    destruct (doesSupportFileType file) eqn:Hs.
    + destruct (IH w) as (w' & Hrun & Hlog). exists w'. split; [|done].
      rewrite run_bind, run_ret, run_bind, Hrun. done.
    + destruct (IH (console_write warn
                      "[ImageConverter] Unsupported file type" w).2)
        as (w' & Hrun & Hlog).
      exists w'. split.
      * rewrite run_bind. cbn [console_write]. cbn [console_write snd] in Hrun.
        rewrite run_bind, Hrun. done.
      * eapply only_logs_trans; [apply only_logs_write|done].
Qed.

Lemma filterSupportedFiles_run fileList w :
  ∃ w', filterSupportedFiles fileList w
        = (Ok (List.filter doesSupportFileType fileList), w')
        ∧ only_logs w w'.
Proof.
  unfold filterSupportedFiles.
  set (m1 := "[ImageConverter] Processing " +:+ _).
  destruct (filter_files_run fileList (console_write info m1 w).2)
    as (w1 & Hrun & Hlog).
  eexists. split.
  - rewrite run_bind. cbn [console_write]. cbn [console_write snd] in Hrun.
    rewrite run_bind, Hrun, run_bind. reflexivity.
  - eapply only_logs_trans; [apply only_logs_write|].
    eapply only_logs_trans; [exact Hlog|]. apply only_logs_write.
Qed.

Lemma filter_sublist {A} (p : A → bool) (l : list A) :
  sublist (List.filter p l) l.
Proof.
  induction l as [|x l IH]; simpl; [constructor|].
  destruct (p x); by constructor.
Qed.

Lemma filter_elem_of {A} (p : A → bool) (l : list A) x :
  x ∈ List.filter p l ↔ x ∈ l ∧ p x = true.
Proof. rewrite !list_elem_of_In. apply filter_In. Qed.

Lemma filter_twice {A} (p : A → bool) (l : list A) :
  List.filter p (List.filter p l) = List.filter p l.
Proof.
  induction l as [|x l IH]; simpl; [done|].
  destruct (p x) eqn:Hx; simpl; [|done]. by rewrite Hx, IH.
Qed.

(** C6.  [filterSupportedFiles] returns exactly the files for which
    [doesSupportFileType] holds, as a subsequence of its input in the input's
    order; it writes to the console and to nothing else (its input is a value
    it only reads); applied to its own output it returns that output. *)
Theorem filterSupportedFiles_filter (fileList : list File) (w : World) :
  let kept := List.filter doesSupportFileType fileList in
  (∃ w', filterSupportedFiles fileList w = (Ok kept, w') ∧ only_logs w w')
  ∧ sublist kept fileList
  ∧ (∀ file, file ∈ kept ↔ file ∈ fileList ∧ doesSupportFileType file = true)
  ∧ (∀ w1, ∃ w2, filterSupportedFiles kept w1 = (Ok kept, w2)).
Proof.
  cbn zeta. split_and!.
  - apply filterSupportedFiles_run.
  - apply filter_sublist.
  - intros file. apply filter_elem_of.
  - intros w1.
    destruct (filterSupportedFiles_run
                (List.filter doesSupportFileType fileList) w1)
      as (w2 & Hrun & _).
    exists w2. by rewrite filter_twice in Hrun.
Qed.

(** ** [createConvertedFileRecord] *)

Lemma createConvertedFileRecord_run host file fmt w :
  ∃ w',
    createConvertedFileRecord host file fmt w
    = (Ok {| id := random_id host (rng w);
             originalFile := file;
             originalUrl := blob_url (next_handle w);
             convertedUrl := "";
             filename :=
               Js.strip_ext (name file) +:+ "." +:+ format_tag fmt;
             isConverting := true;
             sourceFormat :=
               Js.or_value_lit
                 (Js.or_value (Some (getFileExtension (type file)))
                    (Js.Str <$> name_ext file))
                 "unknown";
             targetFormat := fmt;
             originalSize := file_size file;
             convertedSize := 0 |}, w')
    ∧ handles w' = <[blob_url (next_handle w) := file_blob file]> (handles w)
    ∧ next_handle w' = S (next_handle w)
    ∧ body w' = body w ∧ next_node w' = next_node w.
Proof.
  unfold createConvertedFileRecord. run.
  eexists. split; [reflexivity|]. done.
Qed.

Lemma getFileExtension_truthy mimeType :
  Js.truthy_value (getFileExtension mimeType) = true.
Proof.
  unfold getFileExtension, Js.or_value_lit.
  destruct (Js.get MIME_TO_EXT mimeType) as [v|]; [|done].
  destruct (Js.truthy_value v) eqn:E; done.
Qed.

(** The extension of the name is never consulted. *)
Lemma sourceFormat_is_lookup host file fmt w :
  ∃ convertedFile w',
    createConvertedFileRecord host file fmt w = (Ok convertedFile, w')
    ∧ sourceFormat convertedFile = getFileExtension (type file).
Proof.
  destruct (createConvertedFileRecord_run host file fmt w) as (w' & -> & _).
  eexists _, _. split; [done|].
  cbn [sourceFormat Js.or_value]. rewrite getFileExtension_truthy.
  cbn [Js.or_value_lit]. by rewrite getFileExtension_truthy.
Qed.

(** For a media type that is neither an own key of the table nor the name
    of an inherited member, the lookup fails and the answer is
    ["unknown"]. *)
Lemma getFileExtension_unknown mimeType :
  MIME_TO_EXT !! mimeType = None →
  mimeType ∉ Js.Object_prototype →
  getFileExtension mimeType = Js.Str "unknown".
Proof.
  intros Hown Hinh. unfold getFileExtension, Js.get. rewrite Hown.
  destruct (Js.includes Js.Object_prototype mimeType) eqn:E; [|done].
  by apply includes_true in E.
Qed.

(** C4.  A file whose declared media type is [constructor], which is not a
    key of [MIME_TO_EXT]: reading [MIME_TO_EXT['constructor']] finds the
    member the object literal inherits from [Object.prototype], a function,
    which is truthy, so [getFileExtension] returns it in place of
    ["unknown"] and it becomes the record's [sourceFormat].  The name of the
    file is not consulted here either. *)
Theorem sourceFormat_inherited_member :
  MIME_TO_EXT !! type photo_constructor = None
  ∧ ∃ convertedFile w',
      createConvertedFileRecord host_ok photo_constructor jpg empty_world
      = (Ok convertedFile, w')
      ∧ sourceFormat convertedFile = Js.Inherited "constructor"
      ∧ sourceFormat convertedFile ≠ Js.Str "unknown".
Proof.
  split; [reflexivity|].
  destruct (sourceFormat_is_lookup host_ok photo_constructor jpg empty_world)
    as (c & w' & Hrun & Hsrc).
  exists c, w'. split; [done|]. rewrite Hsrc. split; [reflexivity|].
  discriminate.
Qed.

Lemma ends_with_refl s : ends_with s s = true.
Proof. destruct s; simpl; by rewrite ?String.eqb_refl, ?Ascii.eqb_refl. Qed.

Lemma ends_with_app b s : ends_with s (b +:+ s) = true.
Proof.
  induction b as [|c r IH]; [apply ends_with_refl|].
  change (String c r +:+ s) with (String c (r +:+ s)).
  cbn [ends_with]. rewrite IH. apply orb_true_r.
Qed.

(** C5, as stated, fails: for target format [jpeg] the output filename of
    [photo.png] is [photo.jpeg], which does not end in [.jpg]. *)
Lemma filename_jpeg_not_jpg :
  ∃ convertedFile w',
    createConvertedFileRecord host_ok photo_png jpeg empty_world
    = (Ok convertedFile, w')
    ∧ filename convertedFile = "photo.jpeg"
    ∧ ends_with ".jpg" (filename convertedFile) = false.
Proof.
  destruct (createConvertedFileRecord_run host_ok photo_png jpeg empty_world)
    as (w' & -> & _).
  eexists _, _. split; [done|]. split; reflexivity.
Qed.

(** C5, amended.  The output filename is the base name followed by a dot and
    the target format value itself, [png], [jpg], [jpeg] or [webp]; the base
    name is the original name without its trailing extension (a final dot
    followed by one or more characters other than dots), or the whole name
    when it has none. *)
Theorem filename_base_dot_format host file fmt w :
  ∃ convertedFile w',
    createConvertedFileRecord host file fmt w = (Ok convertedFile, w')
    ∧ filename convertedFile
      = Js.strip_ext (name file) +:+ "." +:+ format_tag fmt
    ∧ ends_with ("." +:+ format_tag fmt) (filename convertedFile) = true
    ∧ (∀ base ext,
         name file = base +:+ "." +:+ ext → ext ≠ "" → Js.no_dot ext = true →
         filename convertedFile = base +:+ "." +:+ format_tag fmt)
    ∧ (Js.has_ext (name file) = false →
       filename convertedFile = name file +:+ "." +:+ format_tag fmt).
Proof.
  destruct (createConvertedFileRecord_run host file fmt w) as (w' & -> & _).
  eexists _, _. split; [done|]. cbn [filename]. split_and!.
  - done.
  - apply ends_with_app.
  - intros base ext -> Hne Hnd. by rewrite strip_ext_app.
  - intros Hno. by rewrite strip_ext_none.
Qed.

Lemma filename_base_dot_format_witness :
  ∃ convertedFile w',
    createConvertedFileRecord host_ok photo_png jpeg empty_world
    = (Ok convertedFile, w')
    ∧ filename convertedFile = "photo.jpeg".
Proof.
  destruct (filename_base_dot_format host_ok photo_png jpeg empty_world)
    as (c & w' & Hrun & _ & _ & Hbase & _).
  exists c, w'. split; [exact Hrun|].
  apply (Hbase "photo" "png"); [reflexivity|discriminate|reflexivity].
Defined.

(** ** [setupCanvas] *)

(** C3, as stated, fails: when [getContext('2d')] gives no context, nothing
    is filled and nothing is drawn, also for target format [jpg]. *)
Lemma setupCanvas_without_context :
  ops (setupCanvas host_no_context sample_img jpg) = []
  ∧ ops (setupCanvas host_no_context sample_img jpg)
    ≠ [FillRect "#FFFFFF" 0 0 800 600; DrawImage sample_img 0 0].
Proof. split; [reflexivity|discriminate]. Qed.

(** C3, amended.  The canvas has exactly the bitmap's width and height.
    When a 2D context is obtained, the canvas is filled with white over its
    whole area first exactly for [jpg] and [jpeg], and the bitmap is then
    drawn at the origin with its own size; [png] and [webp] get the drawing
    only.  When no context is obtained the canvas keeps that size and stays
    blank. *)
Theorem setupCanvas_size_and_ops host img fmt :
  width (setupCanvas host img fmt) = img_width img
  ∧ height (setupCanvas host img fmt) = img_height img
  ∧ ops (setupCanvas host img fmt)
    = if context2d host then
        match fmt with
        | jpg | jpeg =>
            [FillRect "#FFFFFF" 0 0 (img_width img) (img_height img);
             DrawImage img 0 0]
        | png | webp => [DrawImage img 0 0]
        end
      else [].
Proof.
  unfold setupCanvas. destruct (context2d host), fmt; done.
Qed.

(** ** [convertImage] *)

(** Every path through [convertImage], with the registry it leaves. *)
Lemma convertImage_run host file fmt w :
  let u := blob_url (next_handle w) in
  let u' := blob_url (S (next_handle w)) in
  match image_source host file with
  | None =>
      ∃ w', convertImage host file fmt w
            = (Err (Error ("Failed to read SVG file: " +:+ name file)), w')
            ∧ registry_is w (handles w) (next_handle w) w'
  | Some b =>
      match decode host b with
      | None =>
          ∃ w', convertImage host file fmt w
                = (Err (Error ("Failed to load image: " +:+ name file)), w')
                ∧ registry_is w (<[u := b]> (handles w))
                    (S (next_handle w)) w'
      | Some (wd, ht) =>
          let img := {| img_src := u; img_width := wd; img_height := ht |} in
          match encode host (setupCanvas host img fmt)
                  (getFormatConfig fmt).1 (getFormatConfig fmt).2 with
          | None =>
              ∃ w', convertImage host file fmt w
                    = (Err (Error "Failed to convert canvas to blob"), w')
                    ∧ registry_is w (<[u := b]> (handles w))
                        (S (next_handle w)) w'
          | Some blob =>
              ∃ w', convertImage host file fmt w
                    = (Ok {| url := u'; size := blob_size blob |}, w')
                    ∧ registry_is w
                        (<[u' := blob]> (<[u := b]> (handles w)))
                        (S (S (next_handle w))) w'
          end
      end
  end.
Proof.
  cbn zeta.
  unfold image_source, convertImage, loadImage, load_src, canvasToBlob.
  destruct (String.eqb (type file) "image/svg+xml");
    [destruct (read_as_text host file) as [txt|]|]; cbn [fmap option_fmap option_map].
  3: { run. cbn. rewrite lookup_insert_eq. cbn.
       destruct (decode host (file_blob file)) as [[wd ht]|]; cbn.
       - destruct (getFormatConfig fmt) as [mime q] eqn:Hcfg. cbn.
         destruct (encode host _ mime q) as [blob|]; cbn;
           eexists; (split; [reflexivity|done]).
       - eexists; (split; [reflexivity|done]). }
  - run. cbn. rewrite lookup_insert_eq. cbn.
    destruct (decode host _) as [[wd ht]|]; cbn.
    + destruct (getFormatConfig fmt) as [mime q] eqn:Hcfg. cbn.
      destruct (encode host _ mime q) as [blob|]; cbn;
        eexists; (split; [reflexivity|done]).
    + eexists; (split; [reflexivity|done]).
  - run. cbn. eexists; (split; [reflexivity|done]).
Qed.

Lemma discard_own files convertedFile :
  discard (id convertedFile) (files ++ [convertedFile])
  = discard (id convertedFile) files.
Proof.
  unfold discard. rewrite List.filter_app. cbn [List.filter].
  rewrite String.eqb_refl. cbn [negb]. apply app_nil_r.
Qed.

Lemma discard_elem_of cid files f :
  f ∈ discard cid files ↔ f ∈ files ∧ id f ≠ cid.
Proof.
  unfold discard. rewrite filter_elem_of, negb_true_iff.
  by rewrite String.eqb_neq.
Qed.

(** C1.  [convertImage] fails exactly when decoding fails (the SVG text
    cannot be read, or the image element reports an error) or when the
    encoder yields no data.  When it fails, the caller's loop body ends with
    the list it started from minus the records carrying the new record's id:
    every record left is one that was there before, unchanged, and none
    carries that id. *)
Theorem convertImage_fails_iff host file fmt :
  (∀ w,
     (∃ e w', convertImage host file fmt w = (Err e, w'))
     ↔ decoding_fails host file ∨ encoding_empty host file fmt w)
  ∧ (∀ w files convertedFile w1 e w2,
       createConvertedFileRecord host file fmt w = (Ok convertedFile, w1) →
       convertImage host file fmt w1 = (Err e, w2) →
       handleFile host fmt files file w
       = (Ok (discard (id convertedFile) files), w2)
       ∧ ∀ f, f ∈ discard (id convertedFile) files →
              f ∈ files ∧ id f ≠ id convertedFile).
Proof.
  split.
  - intros w. pose proof (convertImage_run host file fmt w) as Hrun.
    cbn zeta in Hrun. unfold decoding_fails, encoding_empty.
    destruct (image_source host file) as [b|].
    2: { split; [by left; left|]. intros _.
         destruct Hrun as (w' & ? & _). eauto. }
    destruct (decode host b) as [[wd ht]|] eqn:Hdec.
    2: { split; [intros _; left; right; eauto|]. intros _.
         destruct Hrun as (w' & ? & _). eauto. }
    destruct (encode host _ _ _) as [blob|] eqn:Henc.
    + destruct Hrun as (w' & Hrun & _). split.
      * intros (e & w'' & He). congruence.
      * intros [[?|(b' & ? & ?)]|(b' & wd' & ht' & ? & ? & Hnone)];
          [congruence|congruence|]. congruence.
    + destruct Hrun as (w' & Hrun & _). split; [|eauto].
      intros _. right. exists b, wd, ht. done.
  - intros w files c w1 e w2 Hcreate Hconv. split.
    + unfold handleFile. rewrite run_bind, Hcreate. cbn zeta.
      rewrite run_try, run_bind, Hconv, run_ret. by rewrite discard_own.
    + intros f. by rewrite discard_elem_of.
Qed.

Lemma convertImage_fails_iff_witness :
  ∃ e c w1 w2,
    createConvertedFileRecord host_no_decode invalid_png jpg empty_world
    = (Ok c, w1)
    ∧ convertImage host_no_decode invalid_png jpg w1 = (Err e, w2)
    ∧ handleFile host_no_decode jpg [] invalid_png empty_world = (Ok [], w2).
Proof.
  destruct (createConvertedFileRecord_run
              host_no_decode invalid_png jpg empty_world) as (w1 & Hc & _).
  destruct (proj1 (convertImage_fails_iff host_no_decode invalid_png jpg)
              w1) as [_ Hfail].
  destruct Hfail as (e & w2 & Hconv).
  { left. right. exists (file_blob invalid_png). split; reflexivity. }
  eexists e, _, w1, w2. split; [exact Hc|]. split; [exact Hconv|].
  exact (proj1 (proj2 (convertImage_fails_iff host_no_decode invalid_png jpg)
                  empty_world [] _ w1 e w2 Hc Hconv)).
Defined.

(** ** Object URLs *)

Lemma blob_url_inj n m : blob_url n = blob_url m → n = m.
Proof.
  unfold blob_url. cbn [String.append]. intros H.
  apply (inj pretty). by simplify_eq.
Qed.

Lemma blob_url_nonempty n : blob_url n ≠ "".
Proof. done. Qed.

Lemma blob_url_fresh w n :
  wf_world w → (next_handle w ≤ n)%nat → handles w !! blob_url n = None.
Proof.
  intros [Hh _] Hn. apply eq_None_not_Some. intros Hs.
  destruct (Hh _ Hs) as (m & Hm & Heq). apply blob_url_inj in Heq. lia.
Qed.

(** A successful conversion leaves two new object URLs in the registry: the
    one [loadImage] made for the image source and the one it returns. *)
Lemma convertImage_ok_registry host file fmt w result w' :
  convertImage host file fmt w = (Ok result, w') →
  ∃ b blob,
    image_source host file = Some b
    ∧ url result = blob_url (S (next_handle w))
    ∧ size result = blob_size blob
    ∧ registry_is w
        (<[url result := blob]> (<[blob_url (next_handle w) := b]> (handles w)))
        (S (S (next_handle w))) w'.
Proof.
  intros Hok. pose proof (convertImage_run host file fmt w) as Hrun.
  cbn zeta in Hrun.
  destruct (image_source host file) as [b|];
    [|destruct Hrun as (? & ? & _); congruence].
  destruct (decode host b) as [[wd ht]|];
    [|destruct Hrun as (? & ? & _); congruence].
  destruct (encode host _ _ _) as [blob|];
    [|destruct Hrun as (? & ? & _); congruence].
  destruct Hrun as (w'' & Hrun & Hreg).
  rewrite Hok in Hrun. simplify_eq. by exists b, blob.
Qed.

Lemma convertImage_ok_two_new host file fmt w result w' :
  wf_world w →
  convertImage host file fmt w = (Ok result, w') →
  let u := blob_url (next_handle w) in
  u ≠ url result
  ∧ handles w !! u = None ∧ handles w !! url result = None
  ∧ dom (handles w') = {[ url result ]} ∪ ({[ u ]} ∪ dom (handles w)).
Proof.
  intros Hwf Hok.
  destruct (convertImage_ok_registry _ _ _ _ _ _ Hok)
    as (b & blob & _ & Hurl & _ & Hh & _).
  cbn zeta. rewrite Hurl. split_and!.
  - intros E. apply blob_url_inj in E. lia.
  - apply blob_url_fresh; [done|lia].
  - apply blob_url_fresh; [done|lia].
  - by rewrite Hh, Hurl, !dom_insert_L.
Qed.

(** C9.  On a host where everything succeeds, converting the well-formed
    [photo.png] in the initial platform state returns the object URL
    [blob:1] and leaves two object URLs registered: [blob:1], and [blob:0],
    which [loadImage] created for the image source and did not revoke. *)
Theorem convertImage_keeps_source_url :
  ∃ result w',
    convertImage host_ok photo_png png empty_world = (Ok result, w')
    ∧ url result = "blob:1"
    ∧ handles w' !! "blob:0" = Some (file_blob photo_png)
    ∧ handles w' !! "blob:1"
      = Some {| blob_type := "image/png"; blob_data := "encoded" |}
    ∧ dom (handles w') = {[ "blob:0"; "blob:1" ]}.
Proof.
  pose proof (convertImage_run host_ok photo_png png empty_world) as Hrun.
  cbn in Hrun. destruct Hrun as (w' & Hrun & Hh & _).
  eexists _, w'. split; [exact Hrun|]. rewrite Hh. split_and!.
  - reflexivity.
  - rewrite lookup_insert_ne by done. by rewrite lookup_insert_eq.
  - by rewrite lookup_insert_eq.
  - rewrite !dom_insert_L, dom_empty_L. set_solver.
Qed.

(** ** [downloadFile] *)

Lemma removeChild_new (nodes : list Anchor) (a : Anchor) n :
  Forall (λ b, node b < n) nodes → node a = n →
  List.filter (λ b, negb (Nat.eqb (node b) (node a))) (nodes ++ [a]) = nodes.
Proof.
  intros Hall Ha. rewrite List.filter_app. cbn [List.filter].
  rewrite Nat.eqb_refl. cbn [negb]. rewrite app_nil_r.
  induction Hall as [|b l Hb Hl IH]; [done|].
  cbn [List.filter]. rewrite IH.
  assert (Nat.eqb (node b) (node a) = false) as ->; [|done].
  apply Nat.eqb_neq. lia.
Qed.

(** Every path through [downloadFile]. *)
Lemma downloadFile_run host file w :
  let u := blob_url (next_handle w) in
  let link := {| node := next_node w; href := u; download := filename file |} in
  ∃ w', downloadFile host file w = (Ok tt, w')
    ∧ match retrieved host file w with
      | Err e =>
          registry_is w (handles w) (next_handle w) w'
          ∧ last (console w') = Some (error, "[ImageConverter] Download failed")
      | Ok blob =>
          handles w' = <[u := blob]> (handles w)
          ∧ next_handle w' = S (next_handle w)
          ∧ next_node w' = S (next_node w)
          ∧ match click host u (filename file) with
            | Ok _ =>
                body w'
                = List.filter (λ b, negb (Nat.eqb (node b) (node link)))
                    (body w ++ [link])
                ∧ saved w' = saved w ++ [(u, filename file)]
                ∧ last (console w')
                  = Some (info,
                          "[ImageConverter] Download initiated successfully")
            | Err e =>
                body w' = body w ++ [link]
                ∧ saved w' = saved w
                ∧ last (console w')
                  = Some (error, "[ImageConverter] Download failed")
            end
      end.
Proof.
  cbn zeta. unfold retrieved, downloadFile, set_href, set_download. run.
  cbn [fst snd handles next_handle next_node body saved console rng
       node href download].
  destruct (handles w !! convertedUrl file) as [response|];
    [|destruct (network host (convertedUrl file)) as [response|e]];
    cbn [fst];
    try (destruct (read_body host response) as [blob|e];
         [destruct (click host _ _) as [[]|e]|]);
    eexists; (split; [reflexivity|]);
    cbn [handles next_handle next_node body saved console rng];
    rewrite ?last_snoc; done.
Qed.

(** C8.  [downloadFile] always returns normally: whether fetching the
    converted URL, reading the response body or clicking the link throws,
    the exception is caught, and an error is written to the console. *)
Theorem downloadFile_always_resolves host file w :
  ∃ w',
    downloadFile host file w = (Ok tt, w')
    ∧ (last (console w')
       = Some (info, "[ImageConverter] Download initiated successfully")
       ∨ last (console w')
         = Some (error, "[ImageConverter] Download failed")).
Proof.
  destruct (downloadFile_run host file w) as (w' & Hrun & Hcases).
  exists w'. split; [done|].
  destruct (retrieved host file w); [|by right; apply Hcases].
  destruct Hcases as (_ & _ & _ & Hclick).
  destruct (click host _ _); [left|right]; apply Hclick.
Qed.

(** C10.  A [downloadFile] call that gets the converted bytes registers one
    new object URL for them, which is still registered when the call
    returns, whether the click succeeds or throws; when the click succeeds
    the anchor is gone from [document.body] again and one save action has
    been triggered. *)
Theorem downloadFile_leaves_url host file w blob :
  wf_world w →
  retrieved host file w = Ok blob →
  let u := blob_url (next_handle w) in
  ∃ w',
    downloadFile host file w = (Ok tt, w')
    ∧ handles w !! u = None
    ∧ handles w' = <[u := blob]> (handles w)
    ∧ handles w' !! u = Some blob
    ∧ base.size (handles w') = S (base.size (handles w))
    ∧ match click host u (filename file) with
      | Ok _ => body w' = body w ∧ saved w' = saved w ++ [(u, filename file)]
      | Err _ => saved w' = saved w
      end.
Proof.
  intros Hwf Hget. cbn zeta.
  destruct (downloadFile_run host file w) as (w' & Hrun & Hcases).
  rewrite Hget in Hcases. destruct Hcases as (Hh & _ & _ & Hclick).
  assert (handles w !! blob_url (next_handle w) = None) as Hfresh
    by (by apply blob_url_fresh).
  exists w'. split_and!; [done|done|done| | |].
  - by rewrite Hh, lookup_insert_eq.
  - rewrite Hh. by apply map_size_insert_None.
  - destruct (click host _ _).
    + destruct Hclick as (Hb & Hs & _). split; [|done].
      rewrite Hb. apply removeChild_new with (n := next_node w); [|done].
      apply Hwf.
    + apply Hclick.
Qed.

(** ** Well-formed platform states *)

Lemma wf_empty : wf_world empty_world.
Proof.
  split; [|constructor]. intros u [b Hb]. cbn in Hb.
  by rewrite lookup_empty in Hb.
Qed.

Lemma wf_handles_insert (h : gmap string Blob) n b :
  (∀ u, is_Some (h !! u) → ∃ m, m < n ∧ u = blob_url m) →
  ∀ u, is_Some (<[blob_url n := b]> h !! u) → ∃ m, m < S n ∧ u = blob_url m.
Proof.
  intros Hh u Hu. destruct (decide (blob_url n = u)) as [<-|Hne].
  - exists n. split; [lia|done].
  - rewrite lookup_insert_ne in Hu by done.
    destruct (Hh u Hu) as (m & Hm & ->). exists m. split; [lia|done].
Qed.

Lemma wf_handles_delete (h : gmap string Blob) n u0 :
  (∀ u, is_Some (h !! u) → ∃ m, m < n ∧ u = blob_url m) →
  ∀ u, is_Some (delete u0 h !! u) → ∃ m, m < n ∧ u = blob_url m.
Proof.
  intros Hh u Hu. apply Hh. destruct (decide (u0 = u)) as [<-|Hne].
  - rewrite lookup_delete_eq in Hu. by destruct Hu.
  - by rewrite lookup_delete_ne in Hu.
Qed.

Lemma wf_converted_world : wf_world converted_world.
Proof.
  split; [|constructor]. unfold converted_world. cbn [handles next_handle].
  apply (wf_handles_insert _ 2), (wf_handles_insert _ 1),
    (wf_handles_insert _ 0).
  intros u [b Hb]. by rewrite lookup_empty in Hb.
Qed.

(** The sample state is the one the caller is in after handling
    [photo.png]. *)
Lemma handleFile_photo :
  handleFile host_ok png [] photo_png empty_world
  = (Ok [converted_photo], converted_world).
Proof.
  destruct (createConvertedFileRecord_run host_ok photo_png png empty_world)
    as (w1 & Hc & _).
  unfold handleFile. rewrite run_bind.
  unfold createConvertedFileRecord, convertImage, loadImage, load_src,
    canvasToBlob. run. cbn. rewrite lookup_insert_eq. reflexivity.
Qed.

Lemma downloadFile_leaves_url_witness :
  ∃ w',
    downloadFile host_ok converted_photo converted_world = (Ok tt, w')
    ∧ handles w' !! "blob:3" = Some encoded_png
    ∧ body w' = [].
Proof.
  destruct (downloadFile_leaves_url host_ok converted_photo converted_world
              encoded_png wf_converted_world)
    as (w' & Hrun & _ & _ & Hu & _ & Hbody & _).
  - unfold retrieved, fetch, converted_world.
    cbn [convertedUrl converted_photo handles fst].
    by rewrite lookup_insert_eq.
  - exists w'. split; [exact Hrun|]. split; [exact Hu|exact Hbody].
Defined.

(** ** Cleanup *)

Lemma cleanupFile_run file w :
  ∃ w',
    cleanupFile file w = (Ok tt, w')
    ∧ registry_is w
        (if Js.truthy (convertedUrl file)
         then delete (convertedUrl file) (delete (originalUrl file) (handles w))
         else delete (originalUrl file) (handles w))
        (next_handle w) w'.
Proof.
  unfold cleanupFile. destruct (Js.truthy (convertedUrl file)); run;
    eexists; (split; [reflexivity|done]).
Qed.

Lemma wf_cleanupFile file w w' :
  wf_world w → cleanupFile file w = (Ok tt, w') → wf_world w'.
Proof.
  intros [Hh Hb] Hrun.
  destruct (cleanupFile_run file w) as (w'' & Hrun' & Hreg).
  rewrite Hrun in Hrun'. simplify_eq.
  destruct Hreg as (Hh' & Hn & _ & Hb' & Hnn & _).
  split; [|by rewrite Hb', Hnn].
  rewrite Hh', Hn.
  destruct (Js.truthy _); repeat apply wf_handles_delete; done.
Qed.

Lemma for_each_run files w :
  ∃ w', for_each files w = (Ok tt, w') ∧ (wf_world w → wf_world w').
Proof.
  revert w. induction files as [|file rest IH]; intros w.
  - by exists w.
  - destruct (cleanupFile_run file w) as (w1 & Hrun & _).
    destruct (IH w1) as (w2 & Hrest & Hwf).
    exists w2. split.
    + cbn [for_each]. by rewrite run_bind, Hrun.
    + intros Hw. eapply Hwf, wf_cleanupFile; done.
Qed.

Lemma removeFile_run cid files w :
  ∃ w', removeFile cid files w = (Ok (discard cid files), w')
        ∧ (wf_world w → wf_world w').
Proof.
  unfold removeFile. destruct (List.find _ files) as [fileToRemove|].
  - destruct (cleanupFile_run fileToRemove w) as (w' & Hrun & _).
    exists w'. split; [by rewrite run_bind, Hrun|].
    intros Hw. by eapply wf_cleanupFile.
  - by exists w.
Qed.

Lemma clearAll_run files w :
  ∃ w', clearAll files w = (Ok [], w') ∧ (wf_world w → wf_world w').
Proof.
  unfold clearAll, cleanupFiles.
  set (msg := "[ImageConverter] Cleaning up " +:+ _).
  destruct (for_each_run files (console_write info msg w).2)
    as (w' & Hrun & Hwf).
  exists w'. split.
  - rewrite !run_bind. cbn [console_write]. cbn [console_write snd] in Hrun.
    by rewrite Hrun.
  - intros Hw. apply Hwf. exact Hw.
Qed.

(** ** The tracking-record invariant *)

Lemma created_converting host file fmt w convertedFile w' :
  createConvertedFileRecord host file fmt w = (Ok convertedFile, w') →
  isConverting convertedFile = true ∧ convertedUrl convertedFile = "".
Proof.
  destruct (createConvertedFileRecord_run host file fmt w) as (w1 & -> & _).
  intros. by simplify_eq.
Qed.

Lemma convertImage_ok_url host file fmt w result w' :
  convertImage host file fmt w = (Ok result, w') → url result ≠ "".
Proof.
  intros Hok.
  destruct (convertImage_ok_registry _ _ _ _ _ _ Hok)
    as (_ & _ & _ & -> & _).
  apply blob_url_nonempty.
Qed.

(** The success update writes a non-empty URL and clears the flag of the
    records it matches, and leaves the others as they are. *)
Lemma apply_result_invariant cid result f :
  url result ≠ "" →
  converting_iff_no_url f → converting_iff_no_url (apply_result cid result f).
Proof.
  intros Hurl Hf. unfold apply_result.
  destruct (String.eqb (id f) cid); [|done].
  unfold converting_iff_no_url. cbn [isConverting convertedUrl].
  split; [done|]. intros E. by rewrite E in Hurl.
Qed.

Lemma discard_invariant cid files :
  Forall converting_iff_no_url files →
  Forall converting_iff_no_url (discard cid files).
Proof.
  rewrite !Forall_forall. intros H f Hf.
  apply discard_elem_of in Hf. apply H, Hf.
Qed.

Lemma step_invariant host s s' :
  step host s s' →
  Forall converting_iff_no_url s.2 → Forall converting_iff_no_url s'.2.
Proof.
  intros Hstep. destruct Hstep as
    [w w' files fileList imageFiles Hrun
    |w w' files file fmt c Hrun
    |w w' files file fmt cid r Hrun
    |w w' files file fmt cid e Hrun
    |w w' files file Hrun
    |w w' files files' cid Hrun
    |w w' files files' Hrun]; cbn [snd]; intros Hinv.
  - done.
  - apply Forall_app. split; [done|]. apply Forall_singleton.
    destruct (created_converting _ _ _ _ _ _ Hrun) as [H1 H2].
    unfold converting_iff_no_url. by rewrite H1, H2.
  - apply Forall_fmap. eapply Forall_impl; [exact Hinv|].
    intros f Hf. cbn. apply apply_result_invariant; [|done].
    by eapply convertImage_ok_url.
  - by apply discard_invariant.
  - done.
  - destruct (removeFile_run cid files w) as (w'' & Hrun' & _).
    rewrite Hrun in Hrun'. simplify_eq. by apply discard_invariant.
  - destruct (clearAll_run files w) as (w'' & Hrun' & _).
    rewrite Hrun in Hrun'. simplify_eq. constructor.
Qed.

(** C7.  In every state the caller can reach, by admitting files, applying
    the results of successful conversions, discarding the records of failed
    ones, downloading, removing and clearing, in any interleaving, each
    record in the list has [isConverting] set exactly when its
    [convertedUrl] is empty. *)
Theorem isConverting_iff_convertedUrl_empty host s :
  reachable host s →
  Forall (λ f, isConverting f = true ↔ convertedUrl f = "") s.2.
Proof.
  intros [w0 Hreach].
  change (Forall converting_iff_no_url s.2).
  revert s Hreach.
  apply (rtc_ind_r (λ s, Forall converting_iff_no_url s.2) (w0, []));
    [constructor|].
  intros s s' _ Hstep IH. by eapply step_invariant.
Qed.

(** The loop body of [handleFiles] always completes, and what it does is an
    admission followed by a success update or by a discard. *)
Lemma handleFile_steps host fmt files file w :
  ∃ files' w',
    handleFile host fmt files file w = (Ok files', w')
    ∧ rtc (step host) (w, files) (w', files').
Proof.
  destruct (createConvertedFileRecord_run host file fmt w) as (w1 & Hc & _).
  destruct (convertImage host file fmt w1) as [[r|e] w2] eqn:Hconv.
  - eexists _, w2. split.
    + unfold handleFile. rewrite run_bind, Hc. cbn zeta.
      rewrite run_try, run_bind, Hconv, run_ret. reflexivity.
    + eapply rtc_l; [by eapply step_add|].
      apply rtc_once. by eapply step_success.
  - eexists _, w2. split.
    + unfold handleFile. rewrite run_bind, Hc. cbn zeta.
      rewrite run_try, run_bind, Hconv, run_ret. reflexivity.
    + eapply rtc_l; [by eapply step_add|].
      apply rtc_once. by eapply step_failure.
Qed.

Lemma handle_each_steps host fmt imageFiles files w :
  ∃ files' w',
    handle_each host fmt files imageFiles w = (Ok files', w')
    ∧ rtc (step host) (w, files) (w', files').
Proof.
  revert files w. induction imageFiles as [|file rest IH]; intros files w.
  - by exists files, w.
  - destruct (handleFile_steps host fmt files file w)
      as (files1 & w1 & Hrun & Hsteps).
    destruct (IH files1 w1) as (files2 & w2 & Hrest & Hsteps').
    exists files2, w2. split.
    + cbn [handle_each]. by rewrite run_bind, Hrun.
    + by etrans.
Qed.

(** [handleFiles] always completes, through steps of the relation. *)
Lemma handleFiles_steps host fmt files fileList w :
  ∃ files' w',
    handleFiles host fmt files fileList w = (Ok files', w')
    ∧ rtc (step host) (w, files) (w', files').
Proof.
  destruct (filterSupportedFiles_run fileList w) as (w1 & Hfilter & _).
  destruct (handle_each_steps host fmt
              (List.filter doesSupportFileType fileList) files w1)
    as (files' & w' & Hrun & Hsteps).
  exists files', w'. split.
  - unfold handleFiles. by rewrite run_bind, Hfilter.
  - eapply rtc_l; [by eapply step_filter|done].
Qed.

Lemma isConverting_iff_convertedUrl_empty_witness :
  reachable host_ok (converted_world, [converted_photo])
  ∧ Forall (λ f, isConverting f = true ↔ convertedUrl f = "")
      [converted_photo].
Proof.
  assert (reachable host_ok (converted_world, [converted_photo])) as Hreach.
  { exists empty_world.
    destruct (handleFile_steps host_ok png [] photo_png empty_world)
      as (files' & w' & Hrun & Hsteps).
    rewrite handleFile_photo in Hrun. by simplify_eq. }
  split; [exact Hreach|].
  exact (isConverting_iff_convertedUrl_empty host_ok _ Hreach).
Defined.

(** ** Well-formedness is kept by every step *)

Lemma wf_registry_is w h n w' :
  registry_is w h n w' →
  (∀ u, is_Some (h !! u) → ∃ m, m < n ∧ u = blob_url m) →
  Forall (λ a, node a < next_node w) (body w) →
  wf_world w'.
Proof.
  intros (Hh & Hn & _ & Hb & Hnn & _) Hreg Hbody.
  split; [by rewrite Hh, Hn|by rewrite Hb, Hnn].
Qed.

Lemma wf_only_logs w w' : only_logs w w' → wf_world w → wf_world w'.
Proof. intros [entries ->] Hw. exact Hw. Qed.

Lemma wf_createConvertedFileRecord host file fmt w convertedFile w' :
  createConvertedFileRecord host file fmt w = (Ok convertedFile, w') →
  wf_world w → wf_world w'.
Proof.
  destruct (createConvertedFileRecord_run host file fmt w)
    as (w1 & -> & Hh & Hn & Hb & Hnn).
  intros ? [Hw Hbody]. simplify_eq. split.
  - rewrite Hh, Hn. by apply wf_handles_insert.
  - by rewrite Hb, Hnn.
Qed.

Lemma wf_convertImage host file fmt w r w' :
  convertImage host file fmt w = (r, w') → wf_world w → wf_world w'.
Proof.
  intros Hrun [Hw Hbody].
  pose proof (convertImage_run host file fmt w) as Hcases.
  cbn zeta in Hcases.
  destruct (image_source host file) as [b|];
    [destruct (decode host b) as [[wd ht]|];
     [destruct (encode host _ _ _) as [blob|]|]|];
    destruct Hcases as (w1 & Hrun1 & Hreg);
    rewrite Hrun in Hrun1; simplify_eq;
    (eapply wf_registry_is; [exact Hreg| |exact Hbody]);
    repeat apply wf_handles_insert; exact Hw.
Qed.

Lemma wf_downloadFile host file w w' :
  downloadFile host file w = (Ok tt, w') → wf_world w → wf_world w'.
Proof.
  intros Hrun [Hw Hbody].
  destruct (downloadFile_run host file w) as (w1 & Hrun1 & Hcases).
  rewrite Hrun in Hrun1. simplify_eq.
  destruct (retrieved host file w) as [blob|e].
  - destruct Hcases as (Hh & Hn & Hnn & Hclick). split.
    + rewrite Hh, Hn. by apply wf_handles_insert.
    + rewrite Hnn.
      assert (Forall (λ a, node a < S (next_node w)) (body w)) as Hbody'.
      { eapply Forall_impl; [exact Hbody|]. cbn. intros ? ?. lia. }
      destruct (click host _ _).
      * destruct Hclick as (-> & _). rewrite Forall_forall.
        intros x Hx%list_elem_of_In%filter_In. destruct Hx as [Hx _].
        apply in_app_or in Hx as [Hx|[<-|[]]]; [|cbn; lia].
        rewrite Forall_forall in Hbody'. by apply Hbody', list_elem_of_In.
      * destruct Hclick as (-> & _). apply Forall_app. split; [done|].
        apply Forall_singleton. cbn. lia.
  - destruct Hcases as [Hreg _]. by eapply wf_registry_is.
Qed.

Lemma step_wf host s s' : step host s s' → wf_world s.1 → wf_world s'.1.
Proof.
  intros Hstep. destruct Hstep as
    [w w' files fileList imageFiles Hrun
    |w w' files file fmt c Hrun
    |w w' files file fmt cid r Hrun
    |w w' files file fmt cid e Hrun
    |w w' files file Hrun
    |w w' files files' cid Hrun
    |w w' files files' Hrun]; cbn [fst]; intros Hw.
  - destruct (filterSupportedFiles_run fileList w) as (w1 & Hrun1 & Hlog).
    rewrite Hrun in Hrun1. simplify_eq. by eapply wf_only_logs.
  - by eapply wf_createConvertedFileRecord.
  - by eapply wf_convertImage.
  - by eapply wf_convertImage.
  - by eapply wf_downloadFile.
  - destruct (removeFile_run cid files w) as (w1 & Hrun1 & Hwf).
    rewrite Hrun in Hrun1. simplify_eq. by apply Hwf.
  - destruct (clearAll_run files w) as (w1 & Hrun1 & Hwf).
    rewrite Hrun in Hrun1. simplify_eq. by apply Hwf.
Qed.

(** Started in a well-formed platform state, the caller only reaches
    well-formed ones. *)
Lemma reachable_wf host w0 files0 s :
  wf_world w0 → rtc (step host) (w0, files0) s → wf_world s.1.
Proof.
  intros Hw0 Hreach. revert s Hreach.
  apply (rtc_ind_r (λ s, wf_world s.1) (w0, files0)); [exact Hw0|].
  intros s s' _ Hstep IH. by eapply step_wf.
Qed.

(** * Further properties *)

(** ** Letter case of the file name *)

Lemma lower_ascii_dot c :
  Ascii.eqb (Js.lower_ascii c) "." = Ascii.eqb c ".".
Proof. destruct c as [[] [] [] [] [] [] [] []]; reflexivity. Qed.

Lemma lower_ascii_idemp c :
  Js.lower_ascii (Js.lower_ascii c) = Js.lower_ascii c.
Proof. destruct c as [[] [] [] [] [] [] [] []]; reflexivity. Qed.

Lemma toLowerCase_idemp s :
  Js.toLowerCase (Js.toLowerCase s) = Js.toLowerCase s.
Proof.
  induction s as [|c r IH]; [done|].
  cbn [Js.toLowerCase]. by rewrite lower_ascii_idemp, IH.
Qed.

(** Lower-casing neither adds nor removes a dot, so it commutes with
    splitting at dots. *)
Lemma split_toLowerCase s :
  Js.split "." (Js.toLowerCase s) = map Js.toLowerCase (Js.split "." s).
Proof.
  induction s as [|c r IH]; [done|].
  cbn [Js.toLowerCase Js.split]. rewrite lower_ascii_dot, IH.
  destruct (Ascii.eqb c "."); [done|].
  destruct (Js.split "." r); done.
Qed.

Lemma last_map {A B} (f : A → B) (l : list A) :
  last (map f l) = f <$> last l.
Proof.
  induction l as [|x [|y l] IH]; [done|done|].
  change (map f (x :: y :: l)) with (f x :: f y :: map f l).
  rewrite !last_cons_cons. exact IH.
Qed.

Lemma name_ext_lower file :
  name_ext file
  = Js.toLowerCase <$> Js.pop (Js.split "." (Js.toLowerCase (name file))).
Proof.
  unfold name_ext, Js.pop. rewrite split_toLowerCase, last_map.
  destruct (last (Js.split "." (name file))) as [seg|]; [|done].
  cbn. by rewrite toLowerCase_idemp.
Qed.

(** X1.  [doesSupportFileType] does not depend on the letter case of the
    file name: two files with the same declared media type whose names are
    equal once lower-cased get the same answer. *)
Theorem doesSupportFileType_name_case file1 file2 :
  type file1 = type file2 →
  Js.toLowerCase (name file1) = Js.toLowerCase (name file2) →
  doesSupportFileType file1 = doesSupportFileType file2.
Proof.
  intros Htype Hname. unfold doesSupportFileType.
  by rewrite Htype, (name_ext_lower file1), (name_ext_lower file2), Hname.
Qed.

Lemma doesSupportFileType_name_case_witness :
  doesSupportFileType photo_upper = doesSupportFileType photo_untyped
  ∧ doesSupportFileType photo_upper = true.
Proof.
  split; [|reflexivity].
  apply (doesSupportFileType_name_case photo_upper photo_untyped);
    reflexivity.
Defined.

(** ** The two tables agree *)

Lemma MIME_TO_EXT_none mimeType :
  mimeType ∉ SUPPORTED_INPUT_FORMATS → MIME_TO_EXT !! mimeType = None.
Proof.
  intros Hnot. apply not_elem_of_list_to_map_1. intros Hin. apply Hnot.
  cbn in Hin. unfold SUPPORTED_INPUT_FORMATS.
  repeat (apply elem_of_cons in Hin as [->|Hin];
          [apply (bool_decide_eq_true_1 _); reflexivity|]).
  by apply elem_of_nil in Hin.
Qed.

Lemma getFileExtension_supported mimeType :
  mimeType ∈ SUPPORTED_INPUT_FORMATS →
  ∃ ext,
    getFileExtension mimeType = Js.Str ext
    ∧ ext ∈ SUPPORTED_EXTENSIONS ∧ ext ≠ "unknown".
Proof.
  intros Hin. unfold SUPPORTED_INPUT_FORMATS in Hin.
  repeat (apply elem_of_cons in Hin as [->|Hin];
          [eexists; split; [reflexivity|];
           split; [apply (bool_decide_eq_true_1 _); reflexivity
                  |discriminate]|]).
  by apply elem_of_nil in Hin.
Qed.

(** X2.  The source format of a new record is decided by the declared media
    type alone.  For an allow-listed media type it is one of the supported
    extensions, and not ["unknown"].  For any other media type, also one of a
    file admitted through its name, it is ["unknown"], unless the media type
    is the name of a member of [Object.prototype]: then it is that member.
    The keys of the table are the allow-listed media types. *)
Theorem sourceFormat_by_media_type host file fmt w :
  ∃ convertedFile w',
    createConvertedFileRecord host file fmt w = (Ok convertedFile, w')
    ∧ if Js.includes SUPPORTED_INPUT_FORMATS (type file)
      then ∃ ext,
             sourceFormat convertedFile = Js.Str ext
             ∧ ext ∈ SUPPORTED_EXTENSIONS ∧ ext ≠ "unknown"
      else if Js.includes Js.Object_prototype (type file)
      then sourceFormat convertedFile = Js.Inherited (type file)
      else sourceFormat convertedFile = Js.Str "unknown".
Proof.
  destruct (sourceFormat_is_lookup host file fmt w) as (c & w' & Hrun & Hsrc).
  exists c, w'. split; [done|]. rewrite Hsrc.
  destruct (Js.includes _ (type file)) eqn:Hin.
  - apply getFileExtension_supported. by apply includes_true.
  - assert (MIME_TO_EXT !! type file = None) as Hown.
    { apply MIME_TO_EXT_none. intros H%includes_true. congruence. }
    destruct (Js.includes Js.Object_prototype (type file)) eqn:Hinh.
    + unfold getFileExtension, Js.get. by rewrite Hown, Hinh.
    + apply getFileExtension_unknown; [done|].
      intros H%includes_true. congruence.
Qed.

(** ** The output filename keeps the base name *)

Lemma format_tag_ext fmt :
  format_tag fmt ≠ "" ∧ Js.no_dot (format_tag fmt) = true.
Proof. by destruct fmt. Qed.

Lemma has_ext_app b e :
  e ≠ "" → Js.no_dot e = true → Js.has_ext (b +:+ "." +:+ e) = true.
Proof.
  intros He Hnd. induction b as [|c r IH].
  - destruct e as [|c e]; [done|].
    change ("" +:+ "." +:+ String c e) with (String "." (String c e)).
    cbn [Js.has_ext Js.ext_match_here]. by rewrite Hnd.
  - change ((String c r) +:+ "." +:+ e) with (String c (r +:+ "." +:+ e)).
    cbn [Js.has_ext]. rewrite IH. apply orb_true_r.
Qed.

(** X3.  The output filename always ends in an extension that
    [/\.[^.]+$/] matches, and stripping it gives the base name of the
    original back: feeding an output filename to [createConvertedFileRecord]
    again keeps the base name. *)
Theorem filename_keeps_base host file fmt w :
  ∃ convertedFile w',
    createConvertedFileRecord host file fmt w = (Ok convertedFile, w')
    ∧ Js.has_ext (filename convertedFile) = true
    ∧ Js.strip_ext (filename convertedFile) = Js.strip_ext (name file).
Proof.
  destruct (createConvertedFileRecord_run host file fmt w) as (w' & -> & _).
  destruct (format_tag_ext fmt) as [Hne Hnd].
  eexists _, _. split; [done|]. cbn [filename].
  by rewrite has_ext_app, strip_ext_app.
Qed.

(** ** What [filterSupportedFiles] writes *)

Lemma filter_files_console fileList w :
  filter_files fileList w
  = (Ok (List.filter doesSupportFileType fileList),
     {| handles := handles w; next_handle := next_handle w; rng := rng w;
        body := body w; next_node := next_node w; saved := saved w;
        console :=
          console w
          ++ replicate
               (length (List.filter (λ f, negb (doesSupportFileType f))
                          fileList))
               unsupported_warning |}).
Proof.
  revert w. induction fileList as [|file rest IH]; intros w.
  - cbn. rewrite app_nil_r. by destruct w.
  - cbn [filter_files List.filter].
    destruct (doesSupportFileType file) eqn:Hs; cbn [negb].
    + by rewrite run_bind, run_ret, run_bind, IH.
    + rewrite run_bind. cbn [console_write]. rewrite run_bind, IH.
      cbn [handles next_handle rng body next_node saved console length
           replicate].
      by rewrite <- app_assoc.
Qed.

(** X4.  [filterSupportedFiles] writes the number of files it was given,
    then one warning per file it rejects, then the number of files it keeps,
    and the two numbers differ by the number of warnings. *)
Theorem filterSupportedFiles_console (fileList : list File) (w : World) :
  let kept := List.filter doesSupportFileType fileList in
  let dropped :=
    List.filter (λ f, negb (doesSupportFileType f)) fileList in
  ∃ w',
    filterSupportedFiles fileList w = (Ok kept, w')
    ∧ console w'
      = console w
        ++ [(info, "[ImageConverter] Processing "
                   +:+ pretty (length fileList) +:+ " file(s)")]
        ++ replicate (length dropped) unsupported_warning
        ++ [(info, "[ImageConverter] " +:+ pretty (length kept)
                   +:+ " supported image file(s) found")]
    ∧ length fileList = length kept + length dropped.
Proof.
  cbn zeta. eexists. split_and!.
  - unfold filterSupportedFiles. rewrite run_bind. cbn [console_write].
    rewrite run_bind, filter_files_console, run_bind. reflexivity.
  - cbn [console]. by rewrite <- !app_assoc.
  - symmetry. apply List.filter_length.
Qed.

(** ** [handleFiles] *)

Lemma filter_none {A} (p : A → bool) (l : list A) :
  Forall (λ x, p x = false) l → List.filter p l = [].
Proof.
  induction 1 as [|x l Hx _ IH]; [done|]. cbn. by rewrite Hx.
Qed.

(** X5.  When none of the files is supported, [handleFiles] returns the
    caller's list as it was and only writes to the console: no record and no
    object URL is created, no conversion is started. *)
Theorem handleFiles_nothing_supported host fmt files fileList w :
  Forall (λ file, doesSupportFileType file = false) fileList →
  ∃ w', handleFiles host fmt files fileList w = (Ok files, w')
        ∧ only_logs w w'.
Proof.
  intros Hnone.
  destruct (filterSupportedFiles_run fileList w) as (w' & Hrun & Hlog).
  rewrite (filter_none _ _ Hnone) in Hrun.
  exists w'. split; [|done].
  unfold handleFiles. by rewrite run_bind, Hrun.
Qed.

Lemma handleFiles_nothing_supported_witness :
  ∃ w', handleFiles host_ok jpg [converted_photo] [notes_txt] converted_world
        = (Ok [converted_photo], w')
        ∧ only_logs converted_world w'.
Proof.
  apply (handleFiles_nothing_supported host_ok jpg [converted_photo]
           [notes_txt] converted_world).
  repeat constructor.
Defined.

Lemma map_apply_result_other cid result files :
  Forall (λ f, id f ≠ cid) files →
  map (apply_result cid result) files = files.
Proof.
  induction 1 as [|f l Hf _ IH]; [done|].
  cbn [map]. rewrite IH. unfold apply_result.
  apply String.eqb_neq in Hf. by rewrite Hf.
Qed.

Lemma handleFile_ok_run host fmt files file w convertedFile w1 result w2 :
  Forall (λ f, id f ≠ id convertedFile) files →
  createConvertedFileRecord host file fmt w = (Ok convertedFile, w1) →
  convertImage host file fmt w1 = (Ok result, w2) →
  handleFile host fmt files file w
  = (Ok (files
         ++ [ {| id := id convertedFile;
                 originalFile := file;
                 originalUrl := originalUrl convertedFile;
                 convertedUrl := url result;
                 filename := filename convertedFile;
                 isConverting := false;
                 sourceFormat := sourceFormat convertedFile;
                 targetFormat := fmt;
                 originalSize := file_size file;
                 convertedSize := size result |} ]), w2).
Proof.
  intros Hids Hc Hconv.
  unfold handleFile. rewrite run_bind, Hc. cbn zeta.
  rewrite run_try, run_bind, Hconv, run_ret.
  rewrite map_app, (map_apply_result_other _ _ _ Hids).
  cbn [map]. unfold apply_result. rewrite String.eqb_refl.
  destruct (createConvertedFileRecord_run host file fmt w) as (w1' & Hc' & _).
  rewrite Hc in Hc'. by simplify_eq.
Qed.

(** X6.  When the conversion succeeds and no record in the list carries the
    id the new record got, the loop body of [handleFiles] leaves the old
    records as they were and appends the new record, finished: converted URL
    and size are those of the result, the flag is cleared, every other field
    is as at creation. *)
Theorem handleFile_success host fmt files file w convertedFile w1 result w2 :
  Forall (λ f, id f ≠ id convertedFile) files →
  createConvertedFileRecord host file fmt w = (Ok convertedFile, w1) →
  convertImage host file fmt w1 = (Ok result, w2) →
  handleFile host fmt files file w
  = (Ok (files
         ++ [ {| id := id convertedFile;
                 originalFile := file;
                 originalUrl := originalUrl convertedFile;
                 convertedUrl := url result;
                 filename := filename convertedFile;
                 isConverting := false;
                 sourceFormat := sourceFormat convertedFile;
                 targetFormat := fmt;
                 originalSize := file_size file;
                 convertedSize := size result |} ]), w2).
Proof. apply handleFile_ok_run. Qed.

Lemma handleFile_success_witness :
  ∃ result w1 w2,
    convertImage host_ok photo_png png w1 = (Ok result, w2)
    ∧ handleFile host_ok png [] photo_png empty_world
      = (Ok [ {| id := "id0";
                 originalFile := photo_png;
                 originalUrl := "blob:0";
                 convertedUrl := url result;
                 filename := "photo.png";
                 isConverting := false;
                 sourceFormat := Js.Str "png";
                 targetFormat := png;
                 originalSize := 7;
                 convertedSize := size result |} ], w2).
Proof.
  destruct (createConvertedFileRecord_run host_ok photo_png png empty_world)
    as (w1 & Hc & _).
  pose proof (convertImage_run host_ok photo_png png w1) as Hconv.
  cbn in Hconv. destruct Hconv as (w2 & Hconv & _).
  eexists _, w1, w2. split; [exact Hconv|].
  exact (handleFile_success host_ok png [] photo_png empty_world _ w1 _ w2
           (Forall_nil_2 _) Hc Hconv).
Defined.

(** ** The registry across a conversion *)

Lemma convertImage_registry_grows host file fmt w r w' :
  wf_world w → convertImage host file fmt w = (r, w') →
  handles w ⊆ handles w'.
Proof.
  intros Hwf Hrun.
  pose proof (convertImage_run host file fmt w) as Hcases.
  cbn zeta in Hcases.
  assert (handles w !! blob_url (next_handle w) = None) as Hu
    by (by apply blob_url_fresh).
  assert (handles w !! blob_url (S (next_handle w)) = None) as Hu'
    by (apply blob_url_fresh; [done|lia]).
  destruct (image_source host file) as [b|];
    [destruct (decode host b) as [[wd ht]|];
     [destruct (encode host _ _ _) as [blob|]|]|];
    destruct Hcases as (w1 & Hrun1 & Hh & _);
    rewrite Hrun in Hrun1; simplify_eq; rewrite Hh.
  - trans (<[blob_url (next_handle w) := b]> (handles w));
      [by apply insert_subseteq|].
    apply insert_subseteq.
    rewrite lookup_insert_ne; [done|]. intros E%blob_url_inj. lia.
  - by apply insert_subseteq.
  - by apply insert_subseteq.
  - done.
Qed.

(** X10.  A conversion, successful or not, never removes or replaces a
    registered object URL, and touches neither the document, nor the save
    actions, nor the source of random ids. *)
Theorem convertImage_frame host file fmt w r w' :
  wf_world w →
  convertImage host file fmt w = (r, w') →
  handles w ⊆ handles w'
  ∧ rng w' = rng w ∧ body w' = body w ∧ next_node w' = next_node w
  ∧ saved w' = saved w.
Proof.
  intros Hwf Hrun. split; [by eapply convertImage_registry_grows|].
  pose proof (convertImage_run host file fmt w) as Hcases.
  cbn zeta in Hcases.
  destruct (image_source host file) as [b|];
    [destruct (decode host b) as [[wd ht]|];
     [destruct (encode host _ _ _) as [blob|]|]|];
    destruct Hcases as (w1 & Hrun1 & _ & _ & ? & ? & ? & ?);
    rewrite Hrun in Hrun1; by simplify_eq.
Qed.

Lemma convertImage_frame_witness :
  ∃ r w',
    convertImage host_no_decode invalid_png jpg converted_world = (r, w')
    ∧ handles converted_world ⊆ handles w'
    ∧ body w' = body converted_world.
Proof.
  destruct (convertImage host_no_decode invalid_png jpg converted_world)
    as [r w'] eqn:Hrun.
  destruct (convertImage_frame host_no_decode invalid_png jpg converted_world
              r w' wf_converted_world Hrun) as (Hsub & _ & Hbody & _).
  by exists r, w'.
Defined.

(** X8.  After a successful conversion, fetching the returned URL gives a
    blob whose byte length is the size the conversion reported. *)
Theorem convertImage_then_fetch host file fmt w result w' :
  convertImage host file fmt w = (Ok result, w') →
  ∃ blob,
    fetch host (url result) w' = (Ok blob, w')
    ∧ blob_size blob = size result.
Proof.
  intros Hok.
  destruct (convertImage_ok_registry _ _ _ _ _ _ Hok)
    as (b & blob & _ & _ & Hsize & Hh & _).
  exists blob. split; [|done].
  unfold fetch. by rewrite Hh, lookup_insert_eq.
Qed.

Lemma convertImage_then_fetch_witness :
  ∃ result w',
    convertImage host_ok photo_png png empty_world = (Ok result, w')
    ∧ fetch host_ok (url result) w' = (Ok encoded_png, w')
    ∧ size result = 7.
Proof.
  pose proof (convertImage_run host_ok photo_png png empty_world) as Hrun.
  cbn in Hrun. destruct Hrun as (w' & Hrun & Hh & _).
  destruct (convertImage_then_fetch host_ok photo_png png empty_world _ w'
              Hrun) as (blob & Hfetch & Hsize).
  eexists _, w'. split; [exact Hrun|]. split; [|reflexivity].
  rewrite Hfetch. unfold fetch in Hfetch. cbn [url] in Hfetch.
  rewrite Hh, lookup_insert_eq in Hfetch. by simplify_eq.
Defined.

(** ** Releasing a record *)

Lemma cleanupFile_handles file w :
  ∃ w',
    cleanupFile file w = (Ok tt, w')
    ∧ handles w' ⊆ handles w
    ∧ handles w' !! originalUrl file = None
    ∧ (convertedUrl file = "" ∨ handles w' !! convertedUrl file = None)
    ∧ ∀ u, u ≠ originalUrl file → u ≠ convertedUrl file →
           handles w' !! u = handles w !! u.
Proof.
  destruct (cleanupFile_run file w) as (w' & Hrun & Hh & _).
  exists w'. split; [done|]. rewrite Hh.
  destruct (Js.truthy (convertedUrl file)) eqn:Ht.
  - split_and!.
    + etrans; apply delete_subseteq.
    + destruct (decide (convertedUrl file = originalUrl file)) as [E|E].
      * rewrite E. apply lookup_delete_eq.
      * rewrite lookup_delete_ne by done. apply lookup_delete_eq.
    + right. apply lookup_delete_eq.
    + intros u H1 H2. by rewrite !lookup_delete_ne.
  - split_and!.
    + apply delete_subseteq.
    + apply lookup_delete_eq.
    + left. unfold Js.truthy in Ht.
      by apply negb_false_iff, String.eqb_eq in Ht.
    + intros u H1 H2. by rewrite lookup_delete_ne.
Qed.

(** X11.  [cleanupFile] never throws.  Afterwards the record's original URL
    is not registered, nor is its converted URL unless that is empty; every
    other object URL is registered exactly as before, and none is added. *)
Theorem cleanupFile_revokes_own_urls file w :
  ∃ w',
    cleanupFile file w = (Ok tt, w')
    ∧ handles w' ⊆ handles w
    ∧ handles w' !! originalUrl file = None
    ∧ (convertedUrl file = "" ∨ handles w' !! convertedUrl file = None)
    ∧ ∀ u, u ≠ originalUrl file → u ≠ convertedUrl file →
           handles w' !! u = handles w !! u.
Proof. apply cleanupFile_handles. Qed.

(** X12.  Releasing a record a second time changes nothing but the
    console. *)
Theorem cleanupFile_twice file w :
  ∃ w1 w2,
    cleanupFile file w = (Ok tt, w1)
    ∧ cleanupFile file w1 = (Ok tt, w2)
    ∧ only_logs w1 w2.
Proof.
  unfold cleanupFile. destruct (Js.truthy (convertedUrl file)); run;
    eexists _, _; (split; [reflexivity|]); (split; [reflexivity|]);
    exists [(info, "[ImageConverter] Cleaning up file")];
    cbn [handles next_handle rng body next_node saved console];
    f_equal.
  - rewrite (delete_delete _ (originalUrl file) (convertedUrl file)).
    by rewrite !delete_delete_eq.
  - by rewrite delete_delete_eq.
Qed.

Lemma for_each_handles files w :
  ∃ w',
    for_each files w = (Ok tt, w')
    ∧ handles w' ⊆ handles w
    ∧ (∀ f, f ∈ files →
            handles w' !! originalUrl f = None
            ∧ (convertedUrl f = "" ∨ handles w' !! convertedUrl f = None))
    ∧ ∀ u, (∀ f, f ∈ files → u ≠ originalUrl f ∧ u ≠ convertedUrl f) →
           handles w' !! u = handles w !! u.
Proof.
  revert w. induction files as [|file rest IH]; intros w.
  - exists w. split_and!; [done|done| |done].
    intros f Hf. by apply elem_of_nil in Hf.
  - destruct (cleanupFile_handles file w)
      as (w1 & Hrun & Hsub & Ho & Hc & Hother).
    destruct (IH w1) as (w2 & Hrest & Hsub' & Hgone & Hother').
    exists w2. split_and!.
    + cbn [for_each]. by rewrite run_bind, Hrun.
    + by etrans.
    + intros f [->|Hf]%elem_of_cons; [|by apply Hgone]. split.
      * by eapply lookup_weaken_None.
      * destruct Hc as [Hc|Hc]; [by left|right].
        by eapply lookup_weaken_None.
    + intros u Hu. rewrite Hother'.
      * apply Hother; apply (Hu file); by left.
      * intros f Hf. apply Hu. by right.
Qed.

(** X13.  [clearAll] empties the list and never throws.  Afterwards, for
    every record that was in the list, the original URL is not registered,
    nor is the converted URL unless it is empty; object URLs that belong to
    no record of the list are registered exactly as before. *)
Theorem clearAll_revokes_all files w :
  ∃ w',
    clearAll files w = (Ok [], w')
    ∧ handles w' ⊆ handles w
    ∧ (∀ f, f ∈ files →
            handles w' !! originalUrl f = None
            ∧ (convertedUrl f = "" ∨ handles w' !! convertedUrl f = None))
    ∧ ∀ u, (∀ f, f ∈ files → u ≠ originalUrl f ∧ u ≠ convertedUrl f) →
           handles w' !! u = handles w !! u.
Proof.
  unfold clearAll, cleanupFiles.
  set (msg := "[ImageConverter] Cleaning up " +:+ _).
  destruct (for_each_handles files (console_write info msg w).2)
    as (w' & Hrun & Hfacts).
  exists w'. split; [|exact Hfacts].
  rewrite !run_bind. cbn [console_write]. cbn [console_write snd] in Hrun.
  by rewrite Hrun.
Qed.

(** ** [removeFile] *)

Lemma find_other_ids cid files :
  Forall (λ f, id f ≠ cid) files →
  List.find (λ f, String.eqb (id f) cid) files = None.
Proof.
  induction 1 as [|f l Hf _ IH]; [done|].
  cbn [List.find]. apply String.eqb_neq in Hf. by rewrite Hf.
Qed.

Lemma discard_other_ids cid files :
  Forall (λ f, id f ≠ cid) files → discard cid files = files.
Proof.
  induction 1 as [|f l Hf _ IH]; [done|].
  unfold discard in *. cbn [List.filter].
  apply String.eqb_neq in Hf. rewrite Hf. cbn [negb]. by rewrite IH.
Qed.

(** X14.  Removing an id that no record carries changes neither the list
    nor the platform state: nothing is released and nothing is logged. *)
Theorem removeFile_unknown_id cid files w :
  Forall (λ f, id f ≠ cid) files →
  removeFile cid files w = (Ok files, w).
Proof.
  intros Hids. unfold removeFile.
  by rewrite (find_other_ids _ _ Hids), run_bind, run_ret,
    (discard_other_ids _ _ Hids).
Qed.

Lemma removeFile_unknown_id_witness :
  removeFile "id7" [converted_photo] converted_world
  = (Ok [converted_photo], converted_world).
Proof.
  apply (removeFile_unknown_id "id7" [converted_photo] converted_world).
  repeat constructor. discriminate.
Defined.

(** What [removeFile] does to the registry: the URLs of the first record
    with the id are released, whatever else carries the id. *)
Lemma removeFile_handles cid files w :
  ∃ w',
    removeFile cid files w = (Ok (discard cid files), w')
    ∧ match List.find (λ f, String.eqb (id f) cid) files with
      | Some fileToRemove =>
          registry_is w
            (if Js.truthy (convertedUrl fileToRemove)
             then delete (convertedUrl fileToRemove)
                    (delete (originalUrl fileToRemove) (handles w))
             else delete (originalUrl fileToRemove) (handles w))
            (next_handle w) w'
      | None => w' = w
      end.
Proof.
  unfold removeFile. destruct (List.find _ files) as [fileToRemove|].
  - destruct (cleanupFile_run fileToRemove w) as (w' & Hrun & Hreg).
    exists w'. split; [by rewrite run_bind, Hrun|done].
  - by exists w.
Qed.

Lemma find_last_only cid files f :
  Forall (λ g, id g ≠ cid) files → id f = cid →
  List.find (λ g, String.eqb (id g) cid) (files ++ [f]) = Some f.
Proof.
  intros Hids Hf. induction Hids as [|g l Hg _ IH].
  - cbn. by rewrite Hf, String.eqb_refl.
  - cbn [app List.find]. apply String.eqb_neq in Hg. by rewrite Hg.
Qed.

Lemma truthy_blob_url n : Js.truthy (blob_url n) = true.
Proof. reflexivity. Qed.

(** X15.  Converting a file and then removing its record, in a list where
    no other record carries its id, gives the list back as it was; of the
    three object URLs the two calls created, the record's two are released
    and the one [loadImage] made as image source stays registered. *)
Theorem handleFile_then_removeFile
    host fmt files file w convertedFile w1 result w2 :
  wf_world w →
  Forall (λ f, id f ≠ id convertedFile) files →
  createConvertedFileRecord host file fmt w = (Ok convertedFile, w1) →
  convertImage host file fmt w1 = (Ok result, w2) →
  ∃ files' w3 b,
    handleFile host fmt files file w = (Ok files', w2)
    ∧ removeFile (id convertedFile) files' w2 = (Ok files, w3)
    ∧ image_source host file = Some b
    ∧ handles w !! blob_url (S (next_handle w)) = None
    ∧ handles w3 = <[blob_url (S (next_handle w)) := b]> (handles w).
Proof.
  intros Hwf Hids Hc Hconv.
  pose proof (handleFile_ok_run _ _ _ _ _ _ _ _ _ Hids Hc Hconv) as Hrun.
  destruct (createConvertedFileRecord_run host file fmt w)
    as (w1' & Hc' & Hh1 & Hn1 & _).
  rewrite Hc in Hc'. injection Hc' as -> ->.
  destruct (convertImage_ok_registry _ _ _ _ _ _ Hconv)
    as (b & blob & Hsrc & Hurl & _ & Hh2 & _).
  rewrite Hn1 in Hurl, Hh2. rewrite Hh1, Hurl in Hh2.
  cbn [id originalUrl filename sourceFormat] in *.
  set (c' := {| id := random_id host (rng w);
                convertedUrl := url result |}) in Hrun.
  assert (List.find (λ f, String.eqb (id f) (random_id host (rng w)))
            (files ++ [c']) = Some c') as Hfind
    by (by apply find_last_only).
  destruct (removeFile_handles (random_id host (rng w)) (files ++ [c']) w2)
    as (w3 & Hrm & Hreg).
  rewrite Hfind in Hreg. destruct Hreg as (Hh3 & _).
  assert (handles w !! blob_url (next_handle w) = None) as F0
    by (by apply blob_url_fresh).
  assert (handles w !! blob_url (S (next_handle w)) = None) as F1
    by (apply blob_url_fresh; [done|lia]).
  assert (handles w !! blob_url (S (S (next_handle w))) = None) as F2
    by (apply blob_url_fresh; [done|lia]).
  exists (files ++ [c']), w3, b. split_and!; [done| |done|done|].
  - rewrite Hrm. f_equal. f_equal. unfold discard.
    rewrite List.filter_app. cbn [List.filter id c'].
    rewrite String.eqb_refl. cbn [negb]. rewrite app_nil_r.
    by apply discard_other_ids.
  - rewrite Hh3. cbn [convertedUrl originalUrl c']. rewrite Hurl.
    rewrite truthy_blob_url, Hh2.
    rewrite (delete_insert_ne _ (blob_url (next_handle w)))
      by (intros E%blob_url_inj; lia).
    rewrite (delete_insert_ne _ (blob_url (next_handle w)))
      by (intros E%blob_url_inj; lia).
    rewrite (delete_insert_id (handles w)) by done.
    apply delete_insert_id.
    rewrite lookup_insert_ne; [done|]. intros E%blob_url_inj. lia.
Qed.

Lemma handleFile_then_removeFile_witness :
  ∃ files' w2 w3,
    handleFile host_ok png [] photo_png empty_world = (Ok files', w2)
    ∧ removeFile "id0" files' w2 = (Ok [], w3)
    ∧ handles w3 = <["blob:1" := file_blob photo_png]> ∅.
Proof.
  destruct (createConvertedFileRecord_run host_ok photo_png png empty_world)
    as (w1 & Hc & _).
  pose proof (convertImage_run host_ok photo_png png w1) as Hconv.
  cbn in Hconv. destruct Hconv as (w2 & Hconv & _).
  destruct (handleFile_then_removeFile host_ok png [] photo_png empty_world
              _ w1 _ w2 wf_empty (Forall_nil_2 _) Hc Hconv)
    as (files' & w3 & b & Hrun & Hrm & Hsrc & _ & Hh).
  injection Hsrc as <-.
  exists files', w2, w3. split; [exact Hrun|]. split; [exact Hrm|exact Hh].
Defined.

(** ** A failed download *)

(** X17.  When the converted bytes cannot be retrieved (the fetch or the
    reading of the response fails), [downloadFile] changes nothing but the
    console: no object URL is created, no element is added to the document,
    no save action is triggered. *)
Theorem downloadFile_failure_only_logs host file w e :
  retrieved host file w = Err e →
  ∃ w', downloadFile host file w = (Ok tt, w') ∧ only_logs w w'.
Proof.
  unfold retrieved, downloadFile, only_logs. run.
  cbn [fst snd handles next_handle next_node body saved console rng].
  destruct (handles w !! convertedUrl file) as [response|];
    [|destruct (network host (convertedUrl file)) as [response|e']];
    cbn [fst];
    try (destruct (read_body host response) as [blob|e'']);
    intros He; try discriminate He;
    eexists; (split; [reflexivity|]); eexists;
    cbn [handles next_handle rng body next_node saved console];
    rewrite <- app_assoc; reflexivity.
Qed.

Lemma downloadFile_failure_only_logs_witness :
  ∃ w',
    downloadFile host_ok
      {| id := "id1"; originalFile := photo_png; originalUrl := "blob:0";
         convertedUrl := ""; filename := "photo.jpg"; isConverting := true;
         sourceFormat := Js.Str "png"; targetFormat := jpg;
         originalSize := 7;
         convertedSize := 0 |} empty_world = (Ok tt, w')
    ∧ only_logs empty_world w'.
Proof.
  apply (downloadFile_failure_only_logs host_ok _ empty_world
           (Error "Failed to fetch")).
  reflexivity.
Defined.

(** ** No dangling URL in the list *)

Lemma urls_live_mono w w' f :
  handles w ⊆ handles w' → urls_live w f → urls_live w' f.
Proof.
  intros Hsub [Ho Hc]. split.
  - by eapply lookup_weaken_is_Some.
  - destruct Hc as [Hc|Hc]; [by left|right].
    by eapply lookup_weaken_is_Some.
Qed.

Lemma live_url_registered w u :
  wf_world w → is_Some (handles w !! u) →
  u ≠ "" ∧ ∀ n, (next_handle w ≤ n)%nat → u ≠ blob_url n.
Proof.
  intros [Hh _] Hu. destruct (Hh u Hu) as (m & Hm & ->).
  split; [apply blob_url_nonempty|].
  intros n Hn E%blob_url_inj. lia.
Qed.

(** The URLs of a live record differ from every URL not handed out yet. *)
Lemma urls_live_not_fresh w f n :
  wf_world w → urls_live w f → (next_handle w ≤ n)%nat →
  originalUrl f ≠ "" ∧ originalUrl f ≠ blob_url n
  ∧ convertedUrl f ≠ blob_url n.
Proof.
  intros Hwf [Ho Hc] Hn.
  destruct (live_url_registered _ _ Hwf Ho) as [Ho1 Ho2].
  split_and!; [done|by apply Ho2|].
  destruct Hc as [->|Hc].
  - intros E. by apply (blob_url_nonempty n).
  - by apply (live_url_registered _ _ Hwf Hc).
Qed.

Lemma converted_photo_live : urls_live converted_world converted_photo.
Proof.
  unfold urls_live, converted_world. cbn [handles originalUrl convertedUrl
    converted_photo]. split; [|right].
  - rewrite !lookup_insert_ne by discriminate.
    rewrite lookup_insert_eq. by eexists.
  - rewrite lookup_insert_eq. by eexists.
Qed.

(** X7.  When the conversion fails, the loop body of [handleFiles] drops
    the record without calling [cleanupFile].  In a well-formed platform
    state, with a list whose URLs are registered (as they are in every state
    the caller reaches): the object URL made for the original file at
    creation, which was new, is still registered afterwards, and no record
    of the resulting list holds it, neither as original nor as converted
    URL. *)
Theorem handleFile_failure_keeps_originalUrl
    host fmt files file w convertedFile w1 e w2 :
  wf_world w →
  Forall (urls_live w) files →
  createConvertedFileRecord host file fmt w = (Ok convertedFile, w1) →
  convertImage host file fmt w1 = (Err e, w2) →
  handleFile host fmt files file w
  = (Ok (discard (id convertedFile) files), w2)
  ∧ originalUrl convertedFile = blob_url (next_handle w)
  ∧ handles w !! originalUrl convertedFile = None
  ∧ handles w2 !! originalUrl convertedFile = Some (file_blob file)
  ∧ Forall (λ f, originalUrl f ≠ originalUrl convertedFile
                 ∧ convertedUrl f ≠ originalUrl convertedFile)
      (discard (id convertedFile) files).
Proof.
  intros Hwf Hlive Hc Hconv.
  destruct (createConvertedFileRecord_run host file fmt w)
    as (w1' & Hc' & Hh & _).
  rewrite Hc in Hc'. injection Hc' as -> ->.
  cbn [originalUrl id]. split_and!.
  - unfold handleFile. rewrite run_bind, Hc. cbn zeta.
    rewrite run_try, run_bind, Hconv, run_ret.
    by rewrite discard_own.
  - done.
  - by apply blob_url_fresh.
  - apply (lookup_weaken (handles w1')).
    + rewrite Hh. apply lookup_insert_eq.
    + eapply convertImage_registry_grows; [|exact Hconv].
      by eapply wf_createConvertedFileRecord.
  - rewrite Forall_forall in Hlive |- *.
    intros f [Hf _]%discard_elem_of.
    destruct (urls_live_not_fresh w f (next_handle w) Hwf (Hlive f Hf))
      as (_ & H1 & H2); [lia|done].
Qed.

Lemma handleFile_failure_keeps_originalUrl_witness :
  ∃ w2,
    handleFile host_no_decode jpg [converted_photo] invalid_png
      converted_world = (Ok [converted_photo], w2)
    ∧ handles w2 !! "blob:3" = Some (file_blob invalid_png)
    ∧ originalUrl converted_photo ≠ "blob:3"
    ∧ convertedUrl converted_photo ≠ "blob:3".
Proof.
  destruct (createConvertedFileRecord_run
              host_no_decode invalid_png jpg converted_world)
    as (w1 & Hc & _).
  destruct (convertImage host_no_decode invalid_png jpg w1)
    as [[r|e] w2] eqn:Hconv.
  - exfalso.
    pose proof (convertImage_run host_no_decode invalid_png jpg w1) as Hrun.
    cbn in Hrun. destruct Hrun as (w' & Hrun & _). congruence.
  - destruct (handleFile_failure_keeps_originalUrl host_no_decode jpg
                [converted_photo] invalid_png converted_world _ w1 e w2
                wf_converted_world
                (Forall_cons_2 _ _ _ converted_photo_live (Forall_nil_2 _))
                Hc Hconv)
      as (Hrun & _ & _ & Hreg & Hnone).
    apply Forall_cons_1 in Hnone as [[Ho Hcv] _].
    exists w2. split; [exact Hrun|]. split; [exact Hreg|].
    split; [exact Ho|exact Hcv].
Defined.

Lemma no_dangling_grow w w' files :
  wf_world w' → handles w ⊆ handles w' →
  no_dangling (w, files) → no_dangling (w', files).
Proof.
  unfold no_dangling. cbn [fst snd].
  intros Hwf Hsub (_ & Hlive & Hapart). split_and!; [done| |done].
  eapply Forall_impl; [exact Hlive|]. intros f. by apply urls_live_mono.
Qed.

Lemma no_dangling_discard w cid files :
  no_dangling (w, files) → no_dangling (w, discard cid files).
Proof.
  unfold no_dangling. cbn [fst snd].
  intros (Hwf & Hlive & Hapart). split_and!; [done| |].
  - rewrite Forall_forall in Hlive |- *. intros f Hf%discard_elem_of.
    apply Hlive, Hf.
  - intros f g Hf%discard_elem_of Hg%discard_elem_of.
    apply Hapart; [apply Hf|apply Hg].
Qed.

Lemma no_dangling_add host file fmt w convertedFile w' files :
  createConvertedFileRecord host file fmt w = (Ok convertedFile, w') →
  no_dangling (w, files) → no_dangling (w', files ++ [convertedFile]).
Proof.
  unfold no_dangling. cbn [fst snd].
  intros Hc (Hwf & Hlive & Hapart). cbn [fst snd] in *.
  pose proof (wf_createConvertedFileRecord _ _ _ _ _ _ Hc Hwf) as Hwf'.
  destruct (createConvertedFileRecord_run host file fmt w)
    as (w1 & Hc' & Hh & _).
  rewrite Hc in Hc'. injection Hc' as -> ->.
  assert (handles w !! blob_url (next_handle w) = None) as Hfresh
    by (by apply blob_url_fresh).
  assert (handles w ⊆ handles w1) as Hsub
    by (rewrite Hh; by apply insert_subseteq).
  set (c := {| id := random_id host (rng w) |}).
  assert (∀ f, f ∈ files →
            originalUrl f ≠ "" ∧ originalUrl f ≠ blob_url (next_handle w)
            ∧ convertedUrl f ≠ blob_url (next_handle w)) as Hold.
  { intros f Hf. rewrite Forall_forall in Hlive.
    apply (urls_live_not_fresh w f _ Hwf (Hlive f Hf)). lia. }
  split_and!; [done| |].
  - apply Forall_app. split.
    + eapply Forall_impl; [exact Hlive|]. intros f. by apply urls_live_mono.
    + apply Forall_singleton. split; [|by left].
      cbn [originalUrl c]. rewrite Hh, lookup_insert_eq. by eexists.
  - intros f g [Hf|Hf%list_elem_of_singleton]%elem_of_app
             [Hg|Hg%list_elem_of_singleton]%elem_of_app.
    + by apply Hapart.
    + subst g. destruct (Hold f Hf) as (H1 & H2 & H3).
      intros _. cbn [originalUrl convertedUrl c].
      split_and!; try done; intros; congruence.
    + subst f. destruct (Hold g Hg) as (H1 & H2 & H3).
      intros _. cbn [originalUrl convertedUrl c].
      split_and!; try done; intros; congruence.
    + subst f g. by intros H.
Qed.

Lemma apply_result_fields cid result f :
  id (apply_result cid result f) = id f
  ∧ originalUrl (apply_result cid result f) = originalUrl f
  ∧ convertedUrl (apply_result cid result f)
    = if String.eqb (id f) cid then url result else convertedUrl f.
Proof. unfold apply_result. by destruct (String.eqb (id f) cid). Qed.

Lemma no_dangling_success host file fmt w result w' cid files :
  convertImage host file fmt w = (Ok result, w') →
  no_dangling (w, files) →
  no_dangling (w', map (apply_result cid result) files).
Proof.
  unfold no_dangling. cbn [fst snd].
  intros Hconv (Hwf & Hlive & Hapart). cbn [fst snd] in *.
  pose proof (wf_convertImage _ _ _ _ _ _ Hconv Hwf) as Hwf'.
  pose proof (convertImage_registry_grows _ _ _ _ _ _ Hwf Hconv) as Hsub.
  destruct (convertImage_ok_registry _ _ _ _ _ _ Hconv)
    as (b & blob & _ & Hurl & _ & Hh & _).
  assert (is_Some (handles w' !! url result)) as Hnew
    by (rewrite Hh, lookup_insert_eq; by eexists).
  assert (∀ f, f ∈ files →
            originalUrl f ≠ url result
            ∧ (convertedUrl f = url result → False)) as Hold.
  { intros f Hf. rewrite Forall_forall in Hlive. rewrite Hurl.
    destruct (urls_live_not_fresh w f (S (next_handle w)) Hwf
                (Hlive f Hf)) as (_ & H2 & H3); [lia|done]. }
  split_and!; [done| |].
  - apply Forall_fmap. eapply Forall_impl; [exact Hlive|].
    intros f [Ho Hc]. cbn.
    destruct (apply_result_fields cid result f) as (_ & Eo & Ec).
    split; [rewrite Eo; by eapply lookup_weaken_is_Some|].
    rewrite Ec. destruct (String.eqb (id f) cid); [by right|].
    destruct Hc as [Hc|Hc]; [by left|right].
    by eapply lookup_weaken_is_Some.
  - intros f' g' (f & -> & Hf)%list_elem_of_fmap
                 (g & -> & Hg)%list_elem_of_fmap.
    destruct (apply_result_fields cid result f) as (Ei & Eo & Ec).
    destruct (apply_result_fields cid result g) as (Ei' & Eo' & Ec').
    unfold urls_apart. rewrite Ei, Ei', Eo, Eo', Ec, Ec'.
    intros Hne. destruct (Hapart f g Hf Hg Hne) as (A1 & A2 & A3 & A4).
    destruct (Hold f Hf) as [Of Cf]. destruct (Hold g Hg) as [Og Cg].
    destruct (String.eqb (id f) cid) eqn:Hfid,
             (String.eqb (id g) cid) eqn:Hgid.
    + apply String.eqb_eq in Hfid, Hgid. congruence.
    + split_and!; [done|done| |].
      * intros E. by apply Og.
      * intros _ E. by apply Cg.
    + split_and!; [done|done|done|].
      intros _ E. by apply Cf.
    + done.
Qed.

Lemma no_dangling_remove w cid files w' :
  removeFile cid files w = (Ok (discard cid files), w') →
  no_dangling (w, files) → no_dangling (w', discard cid files).
Proof.
  intros Hrm Hinv.
  destruct (removeFile_run cid files w) as (w1 & Hrm1 & Hwf1).
  destruct (removeFile_handles cid files w) as (w2 & Hrm2 & Hreg).
  rewrite Hrm in Hrm1, Hrm2. injection Hrm1 as <-. injection Hrm2 as <-.
  destruct (List.find _ files) as [f0|] eqn:Hfind;
    [|subst w'; by apply no_dangling_discard].
  apply List.find_some in Hfind as [Hin Hid].
  apply list_elem_of_In in Hin. apply String.eqb_eq in Hid.
  destruct Hinv as (Hwf & Hlive & Hapart). cbn [fst snd] in *.
  destruct Hreg as (Hh & _).
  unfold no_dangling. cbn [fst snd].
  split_and!; [by apply Hwf1| |].
  - rewrite Forall_forall in Hlive |- *.
    intros g [Hg Hgid]%discard_elem_of.
    destruct (Hlive g Hg) as [Ho Hc].
    destruct (Hapart g f0 Hg Hin) as (A1 & A2 & A3 & A4); [congruence|].
    assert (∀ u, u ≠ originalUrl f0 → u ≠ convertedUrl f0 →
                 handles w' !! u = handles w !! u) as Hkeep.
    { intros u H1 H2. rewrite Hh.
      destruct (Js.truthy _); by rewrite ?lookup_delete_ne. }
    split.
    + by rewrite Hkeep.
    + destruct Hc as [Hc|Hc]; [by left|right].
      rewrite Hkeep; [done|done|].
      apply A4. intros E. rewrite E in Hc.
      by apply (live_url_registered _ _ Hwf) in Hc as [Hc _].
  - intros f g Hf%discard_elem_of Hg%discard_elem_of.
    apply Hapart; [apply Hf|apply Hg].
Qed.

Lemma step_no_dangling host s s' :
  step host s s' → no_dangling s → no_dangling s'.
Proof.
  intros Hstep Hinv. pose proof (step_wf _ _ _ Hstep (proj1 Hinv)) as Hwf'.
  destruct Hstep as
    [w w' files fileList imageFiles Hrun
    |w w' files file fmt c Hrun
    |w w' files file fmt cid r Hrun
    |w w' files file fmt cid e Hrun
    |w w' files file Hrun
    |w w' files files' cid Hrun
    |w w' files files' Hrun]; cbn [fst] in Hwf'.
  - destruct (filterSupportedFiles_run fileList w) as (w1 & Hrun1 & [l ->]).
    rewrite Hrun in Hrun1. injection Hrun1 as _ ->.
    by apply (no_dangling_grow w).
  - by eapply no_dangling_add.
  - by eapply no_dangling_success.
  - apply no_dangling_discard. apply (no_dangling_grow w); [done| |done].
    eapply convertImage_registry_grows; [apply Hinv|exact Hrun].
  - apply (no_dangling_grow w); [done| |done].
    destruct (downloadFile_run host file w) as (w1 & Hrun1 & Hcases).
    rewrite Hrun in Hrun1. injection Hrun1 as <-.
    destruct (retrieved host file w).
    + destruct Hcases as (-> & _). apply insert_subseteq.
      apply blob_url_fresh; [apply Hinv|done].
    + destruct Hcases as [(-> & _) _]. done.
  - destruct (removeFile_run cid files w) as (w1 & Hrun1 & _).
    rewrite Hrun in Hrun1. injection Hrun1 as -> ->.
    by apply (no_dangling_remove w).
  - destruct (clearAll_run files w) as (w1 & Hrun1 & _).
    rewrite Hrun in Hrun1. injection Hrun1 as -> ->.
    unfold no_dangling. cbn [fst snd].
    split_and!; [done|constructor|].
    intros f g Hf. by apply elem_of_nil in Hf.
Qed.

Lemma rtc_no_dangling host w0 s :
  wf_world w0 → rtc (step host) (w0, []) s → no_dangling s.
Proof.
  intros Hw0 Hreach. revert s Hreach.
  apply (rtc_ind_r (λ s, no_dangling s) (w0, [])).
  - unfold no_dangling. cbn [fst snd]. split_and!; [done|constructor|].
    intros f g Hf. by apply elem_of_nil in Hf.
  - intros s s' _ Hstep IH. by eapply step_no_dangling.
Qed.

Lemma rtc_converting_iff host w0 s :
  rtc (step host) (w0, []) s → Forall converting_iff_no_url s.2.
Proof.
  intros Hreach. revert s Hreach.
  apply (rtc_ind_r (λ s, Forall converting_iff_no_url s.2) (w0, []));
    [constructor|].
  intros s s' _ Hstep IH. by eapply step_invariant.
Qed.

(** X16.  Started with an empty list in a well-formed platform state, the
    caller never holds a revoked URL: in every state it reaches, in any
    interleaving of its handlers and also when ids collide, each record's
    original URL is registered, and its converted URL is empty or
    registered. *)
Theorem listed_urls_are_registered host w0 s :
  wf_world w0 →
  rtc (step host) (w0, []) s →
  Forall (λ f,
            is_Some (handles s.1 !! originalUrl f)
            ∧ (convertedUrl f = ""
               ∨ is_Some (handles s.1 !! convertedUrl f))) s.2.
Proof.
  intros Hw0 Hreach. by apply (rtc_no_dangling host w0 s Hw0 Hreach).
Qed.

Lemma steps_to_converted_world :
  rtc (step host_ok) (empty_world, []) (converted_world, [converted_photo]).
Proof.
  destruct (handleFile_steps host_ok png [] photo_png empty_world)
    as (files' & w' & Hrun & Hsteps).
  rewrite handleFile_photo in Hrun. by simplify_eq.
Qed.

Lemma listed_urls_are_registered_witness :
  Forall (λ f,
            is_Some (handles converted_world !! originalUrl f)
            ∧ (convertedUrl f = ""
               ∨ is_Some (handles converted_world !! convertedUrl f)))
    [converted_photo].
Proof.
  exact (listed_urls_are_registered host_ok empty_world
           (converted_world, [converted_photo]) wf_empty
           steps_to_converted_world).
Defined.

(** X18.  In every such state, a record that is no longer converting has a
    converted URL that is registered: fetching it, as [downloadFile] and the
    preview do, is served from the registry and never goes to the
    network. *)
Theorem finished_record_url_registered host w0 s f :
  wf_world w0 →
  rtc (step host) (w0, []) s →
  f ∈ s.2 →
  isConverting f = false →
  ∃ blob,
    handles s.1 !! convertedUrl f = Some blob
    ∧ fetch host (convertedUrl f) s.1 = (Ok blob, s.1)
    ∧ retrieved host f s.1 = read_body host blob.
Proof.
  intros Hw0 Hreach Hf Hdone.
  destruct (rtc_no_dangling host w0 s Hw0 Hreach) as (_ & Hlive & _).
  pose proof (rtc_converting_iff host w0 s Hreach) as Hiff.
  rewrite Forall_forall in Hlive, Hiff.
  destruct (Hlive f Hf) as [_ [Hempty|[blob Hblob]]].
  - apply (Hiff f Hf) in Hempty. congruence.
  - exists blob. unfold retrieved, fetch. by rewrite Hblob.
Qed.

Lemma finished_record_url_registered_witness :
  ∃ blob,
    handles converted_world !! "blob:2" = Some blob
    ∧ fetch host_ok "blob:2" converted_world = (Ok blob, converted_world)
    ∧ retrieved host_ok converted_photo converted_world
      = read_body host_ok blob.
Proof.
  apply (finished_record_url_registered host_ok empty_world
           (converted_world, [converted_photo]) converted_photo wf_empty
           steps_to_converted_world).
  - by apply list_elem_of_singleton.
  - reflexivity.
Defined.

(** ** The extension of a dotted name *)

Lemma split_ends_with_ext b e :
  Js.no_dot e = true →
  ∃ seg segs, Js.split "." (b +:+ "." +:+ e) = (seg :: segs) ++ [e].
Proof.
  intros Hnd. induction b as [|c r IH].
  - exists "", [].
    change (Js.split "." ("" +:+ "." +:+ e)) with ("" :: Js.split "." e).
    by rewrite (split_no_dot _ Hnd).
  - destruct IH as (seg & segs & IH).
    change ((String c r) +:+ "." +:+ e) with (String c (r +:+ "." +:+ e)).
    cbn [Js.split]. rewrite IH. destruct (Ascii.eqb c ".").
    + by exists "", (seg :: segs).
    + by exists (String c seg), segs.
Qed.

Lemma name_ext_dotted file base ext :
  name file = base +:+ "." +:+ ext → Js.no_dot ext = true →
  name_ext file = Some (Js.toLowerCase ext).
Proof.
  intros Hname Hnd. unfold name_ext, Js.pop. rewrite Hname.
  destruct (split_ends_with_ext base ext Hnd) as (seg & segs & ->).
  by rewrite last_snoc.
Qed.

(** X20.  For a file whose declared media type is not allow-listed and whose
    name has a dot, the answer of [doesSupportFileType] is whether what
    follows the last dot, lower-cased, is in the extension allow-list; a name
    that ends in a dot is rejected. *)
Theorem doesSupportFileType_by_extension file base ext :
  type file ∉ SUPPORTED_INPUT_FORMATS →
  name file = base +:+ "." +:+ ext →
  Js.no_dot ext = true →
  doesSupportFileType file
  = Js.includes SUPPORTED_EXTENSIONS (Js.toLowerCase ext).
Proof.
  intros Hm Hname Hnd. unfold doesSupportFileType.
  destruct (Js.includes _ (type file)) eqn:E.
  { apply includes_true in E. done. }
  rewrite (name_ext_dotted _ _ _ Hname Hnd). cbn [Js.or_lit].
  destruct (Js.truthy _) eqn:Ht; [done|].
  unfold Js.truthy in Ht. apply negb_false_iff, String.eqb_eq in Ht.
  by rewrite Ht.
Qed.

Lemma doesSupportFileType_by_extension_witness :
  doesSupportFileType photo_upper = true
  ∧ doesSupportFileType notes_txt = false.
Proof.
  split.
  - rewrite (doesSupportFileType_by_extension photo_upper "PHOTO" "PNG");
      [reflexivity| |reflexivity|reflexivity].
    apply (bool_decide_eq_false_1 _). reflexivity.
  - rewrite (doesSupportFileType_by_extension notes_txt "notes" "txt");
      [reflexivity| |reflexivity|reflexivity].
    apply (bool_decide_eq_false_1 _). reflexivity.
Defined.

(** ** Where the converted bytes come from *)

(** X21.  The blob behind the URL a successful conversion returns is what
    the encoder produced for the canvas set up from the decoded bitmap, asked
    for the media type and quality of the target format; the bitmap was
    decoded from the file itself, or for SVG input from the text read from
    it, and its source URL is still registered with those bytes. *)
Theorem convertImage_result_is_encoding host file fmt w result w' :
  convertImage host file fmt w = (Ok result, w') →
  ∃ source wd ht blob,
    image_source host file = Some source
    ∧ decode host source = Some (wd, ht)
    ∧ encode host
        (setupCanvas host
           {| img_src := blob_url (next_handle w);
              img_width := wd; img_height := ht |} fmt)
        (getFormatConfig fmt).1 (getFormatConfig fmt).2 = Some blob
    ∧ handles w' !! url result = Some blob
    ∧ handles w' !! blob_url (next_handle w) = Some source
    ∧ size result = blob_size blob.
Proof.
  intros Hok. pose proof (convertImage_run host file fmt w) as Hrun.
  cbn zeta in Hrun.
  destruct (image_source host file) as [source|];
    [|destruct Hrun as (? & ? & _); congruence].
  destruct (decode host source) as [[wd ht]|] eqn:Hdec;
    [|destruct Hrun as (? & ? & _); congruence].
  destruct (encode host _ _ _) as [blob|] eqn:Henc;
    [|destruct Hrun as (? & ? & _); congruence].
  destruct Hrun as (w'' & Hrun & Hh & _).
  rewrite Hok in Hrun. injection Hrun as -> <-.
  exists source, wd, ht, blob. cbn [url size]. rewrite Hh.
  split_and!; [done|done|done| | |done].
  - apply lookup_insert_eq.
  - rewrite lookup_insert_ne; [apply lookup_insert_eq|].
    intros E%blob_url_inj. lia.
Qed.

Lemma convertImage_result_is_encoding_witness :
  ∃ result w',
    convertImage host_ok photo_png jpg empty_world = (Ok result, w')
    ∧ handles w' !! url result
      = Some {| blob_type := "image/jpeg"; blob_data := "encoded" |}
    ∧ handles w' !! "blob:0" = Some (file_blob photo_png).
Proof.
  pose proof (convertImage_run host_ok photo_png jpg empty_world) as Hrun.
  cbn in Hrun. destruct Hrun as (w' & Hrun & _).
  destruct (convertImage_result_is_encoding host_ok photo_png jpg empty_world
              _ w' Hrun)
    as (source & wd & ht & blob & Hsrc & _ & Henc & Hres & Hsource & _).
  injection Hsrc as <-. injection Henc as <-.
  eexists _, w'. split; [exact Hrun|]. split; [exact Hres|exact Hsource].
Defined.

(** ** Removing a record whose id is not unique *)

(** X19.  [removeFile] releases the URLs of the first record with the id
    only, yet drops every record with the id from the list: the original URL
    of a later record with the same id stays registered as it was, with no
    record left to release it. *)
Theorem removeFile_releases_first_only cid files w fileToRemove other :
  List.find (λ f, String.eqb (id f) cid) files = Some fileToRemove →
  other ∈ files →
  id other = cid →
  originalUrl other ≠ originalUrl fileToRemove →
  originalUrl other ≠ convertedUrl fileToRemove →
  ∃ w',
    removeFile cid files w = (Ok (discard cid files), w')
    ∧ (other ∉ discard cid files)
    ∧ handles w' !! originalUrl other = handles w !! originalUrl other.
Proof.
  intros Hfind Hin Hid Hne1 Hne2.
  destruct (removeFile_handles cid files w) as (w' & Hrun & Hreg).
  rewrite Hfind in Hreg. destruct Hreg as (Hh & _).
  exists w'. split_and!; [done| |].
  - rewrite discard_elem_of. by intros [_ ?].
  - rewrite Hh. destruct (Js.truthy _); by rewrite ?lookup_delete_ne.
Qed.

Lemma removeFile_releases_first_only_witness :
  ∃ w',
    removeFile "id0" [converted_photo; colliding_photo] converted_world
    = (Ok [], w')
    ∧ handles w' !! "blob:1" = Some (file_blob photo_png).
Proof.
  destruct (removeFile_releases_first_only "id0"
              [converted_photo; colliding_photo] converted_world
              converted_photo colliding_photo)
    as (w' & Hrun & _ & Hkeep);
    [reflexivity|by apply list_elem_of_In; right; left
    |reflexivity|discriminate|discriminate|].
  exists w'. split; [exact Hrun|].
  cbn [originalUrl colliding_photo] in Hkeep. rewrite Hkeep.
  unfold converted_world. cbn [handles].
  rewrite lookup_insert_ne by discriminate. apply lookup_insert_eq.
Defined.
